(** * SentryOS desktop shell: window manager, folder view and chat relay

    A shallow embedding of the state-carrying logic of the repository:

    - [WindowManager]: the updater functions that
      [src/components/desktop/WindowManager.tsx] hands to React's
      [setWindows] / [setTopZIndex];
    - [FolderView]: [handleItemClick] of
      [src/components/desktop/apps/FolderView.tsx] together with the timer
      it arms;
    - [ChatRoute]: the [POST] handler of the chat route.

    Breadcrumbs, captured messages and metrics are fire-and-forget calls
    into the reporting SDK; they are taken to return normally, they never
    feed back into the state, and they are left out. *)

From Stdlib Require Import List String Ascii ZArith Bool Lia QArith.
Import ListNotations.

Local Open Scope string_scope.
Local Open Scope Z_scope.

(* ===================================================================== *)
(** ** Window manager *)
(* ===================================================================== *)

Module WindowManager.

Section Model.

(** [content] is a [React.ReactNode] and the geometry fields are JavaScript
    numbers.  The manager stores them and hands them back; it never looks
    inside, so both types are left abstract. *)
Variables (ReactNode number : Type).

(** [WindowState] of [types.ts].  [zIndex] only ever holds values of the
    stacking counter, which starts at 100 and grows by one per operation:
    an integer, exact in a JavaScript number for any session of fewer than
    2^53 operations.  It is modelled as [Z]. *)
Record WindowState : Type := mkWindowState {
  id : string;
  title : string;
  icon : string;
  x : number;
  y : number;
  width : number;
  height : number;
  minWidth : number;
  minHeight : number;
  isMinimized : bool;
  isMaximized : bool;
  isFocused : bool;
  zIndex : Z;
  content : ReactNode
}.

(** [Omit<WindowState, 'zIndex' | 'isFocused'>], the argument of
    [openWindow]. *)
Record WindowDescriptor : Type := mkWindowDescriptor {
  d_id : string;
  d_title : string;
  d_icon : string;
  d_x : number;
  d_y : number;
  d_width : number;
  d_height : number;
  d_minWidth : number;
  d_minHeight : number;
  d_isMinimized : bool;
  d_isMaximized : bool;
  d_content : ReactNode
}.

(** The two pieces of React state of [WindowManagerProvider]. *)
Record State : Type := mkState {
  windows : list WindowState;
  topZIndex : Z
}.

(** [useState<WindowState[]>([])] and [useState(100)]. *)
Definition initial : State := mkState [] 100.

(** Object spreads [{ ...w, field: value }]. *)
Definition with_isFocused (b : bool) (w : WindowState) : WindowState :=
  mkWindowState (id w) (title w) (icon w) (x w) (y w) (width w) (height w)
    (minWidth w) (minHeight w) (isMinimized w) (isMaximized w) b (zIndex w)
    (content w).

Definition with_isMinimized (b : bool) (w : WindowState) : WindowState :=
  mkWindowState (id w) (title w) (icon w) (x w) (y w) (width w) (height w)
    (minWidth w) (minHeight w) b (isMaximized w) (isFocused w) (zIndex w)
    (content w).

Definition with_isMaximized (b : bool) (w : WindowState) : WindowState :=
  mkWindowState (id w) (title w) (icon w) (x w) (y w) (width w) (height w)
    (minWidth w) (minHeight w) (isMinimized w) b (isFocused w) (zIndex w)
    (content w).

Definition with_zIndex (z : Z) (w : WindowState) : WindowState :=
  mkWindowState (id w) (title w) (icon w) (x w) (y w) (width w) (height w)
    (minWidth w) (minHeight w) (isMinimized w) (isMaximized w) (isFocused w) z
    (content w).

Definition with_position (nx ny : number) (w : WindowState) : WindowState :=
  mkWindowState (id w) (title w) (icon w) nx ny (width w) (height w)
    (minWidth w) (minHeight w) (isMinimized w) (isMaximized w) (isFocused w)
    (zIndex w) (content w).

Definition with_size (nw nh : number) (w : WindowState) : WindowState :=
  mkWindowState (id w) (title w) (icon w) (x w) (y w) nw nh
    (minWidth w) (minHeight w) (isMinimized w) (isMaximized w) (isFocused w)
    (zIndex w) (content w).

(** [{ ...window, zIndex: newZ, isFocused: true }]. *)
Definition of_descriptor (d : WindowDescriptor) (newZ : Z) : WindowState :=
  mkWindowState (d_id d) (d_title d) (d_icon d) (d_x d) (d_y d) (d_width d)
    (d_height d) (d_minWidth d) (d_minHeight d) (d_isMinimized d)
    (d_isMaximized d) true newZ (d_content d).

(** [w.id === id]. *)
Definition has_id (i : string) (w : WindowState) : bool := String.eqb (id w) i.

(** [openWindow], lines 53-90. *)
Definition openWindow (window : WindowDescriptor) (s : State) : State :=
  let newZ := topZIndex s + 1 in
  let prev := windows s in
  mkState
    (match find (has_id (d_id window)) prev with
     | Some existing =>
         if isMinimized existing then
           map (fun w =>
                  if has_id (d_id window) w
                  then with_zIndex newZ
                         (with_isFocused true (with_isMinimized false w))
                  else with_isFocused false w) prev
         else
           map (fun w =>
                  if has_id (d_id window) w
                  then with_zIndex newZ (with_isFocused true w)
                  else with_isFocused false w) prev
     | None =>
         map (with_isFocused false) prev ++ [of_descriptor window newZ]
     end)
    newZ.

(** [closeWindow], line 106. *)
Definition closeWindow (i : string) (s : State) : State :=
  mkState (filter (fun w => negb (has_id i w)) (windows s)) (topZIndex s).

(** [minimizeWindow], lines 118-120. *)
Definition minimizeWindow (i : string) (s : State) : State :=
  mkState
    (map (fun w =>
            if has_id i w
            then with_isFocused false (with_isMinimized true w)
            else w) (windows s))
    (topZIndex s).

(** [maximizeWindow], lines 135-137. *)
Definition maximizeWindow (i : string) (s : State) : State :=
  mkState
    (map (fun w =>
            if has_id i w
            then with_isMaximized (negb (isMaximized w)) w
            else w) (windows s))
    (topZIndex s).

(** [restoreWindow], lines 141-149. *)
Definition restoreWindow (i : string) (s : State) : State :=
  let newZ := topZIndex s + 1 in
  mkState
    (map (fun w =>
            if has_id i w
            then with_zIndex newZ
                   (with_isFocused true (with_isMinimized false w))
            else with_isFocused false w) (windows s))
    newZ.

(** [focusWindow], lines 153-161. *)
Definition focusWindow (i : string) (s : State) : State :=
  let newZ := topZIndex s + 1 in
  mkState
    (map (fun w =>
            if has_id i w
            then with_zIndex newZ (with_isFocused true w)
            else with_isFocused false w) (windows s))
    newZ.

(** [updateWindowPosition], lines 171-173. *)
Definition updateWindowPosition (i : string) (nx ny : number) (s : State)
  : State :=
  mkState
    (map (fun w => if has_id i w then with_position nx ny w else w)
         (windows s))
    (topZIndex s).

(** [updateWindowSize], lines 186-188. *)
Definition updateWindowSize (i : string) (nw nh : number) (s : State)
  : State :=
  mkState
    (map (fun w => if has_id i w then with_size nw nh w else w) (windows s))
    (topZIndex s).

(** The operations of [WindowManagerContextType]. *)
Inductive Op : Type :=
| Open (window : WindowDescriptor)
| Close (i : string)
| Minimize (i : string)
| Maximize (i : string)
| Restore (i : string)
| Focus (i : string)
| Move (i : string) (nx ny : number)
| Resize (i : string) (nw nh : number).

Definition step (o : Op) (s : State) : State :=
  match o with
  | Open window => openWindow window s
  | Close i => closeWindow i s
  | Minimize i => minimizeWindow i s
  | Maximize i => maximizeWindow i s
  | Restore i => restoreWindow i s
  | Focus i => focusWindow i s
  | Move i nx ny => updateWindowPosition i nx ny s
  | Resize i nw nh => updateWindowSize i nw nh s
  end.

(** The event loop runs the operations one after the other. *)
Definition run (ops : list Op) (s : State) : State :=
  fold_left (fun st o => step o st) ops s.

(** The states seen after each operation of [ops], oldest first. *)
Fixpoint trace (ops : list Op) (s : State) : list State :=
  match ops with
  | [] => []
  | o :: rest => step o s :: trace rest (step o s)
  end.

(** States the provider can be in: [initial] and whatever the operations
    make of it. *)
Inductive reachable : State -> Prop :=
| reachable_initial : reachable initial
| reachable_step : forall o s, reachable s -> reachable (step o s).

(** How the taskbar drives the manager ([handleWindowClick] of
    [Taskbar.tsx]): [restoreWindow] for a minimized entry, [focusWindow]
    otherwise. *)
Definition handleWindowClick (i : string) (minimized : bool) (s : State)
  : State :=
  if minimized then restoreWindow i s else focusWindow i s.

(** The way the callers in this repository use the manager as far as
    minimized windows go: a descriptor that creates a window has
    [isMinimized: false] (when the id exists the flag of the descriptor is
    never read), and [focusWindow] is asked only for records that are not
    minimized ([handleWindowClick] sends the others to [restoreWindow]). *)
Definition respects_minimized (o : Op) (s : State) : Prop :=
  match o with
  | Open window =>
      find (has_id (d_id window)) (windows s) = None ->
      d_isMinimized window = false
  | Focus i => forall w, In w (windows s) -> has_id i w = true ->
                         isMinimized w = false
  | _ => True
  end.

(** States reached when every operation respects that usage. *)
Inductive reachable_guarded : State -> Prop :=
| guarded_initial : reachable_guarded initial
| guarded_step : forall o s,
    reachable_guarded s -> respects_minimized o s ->
    reachable_guarded (step o s).

(** Read-side helpers used to state properties. *)
Definition ids (s : State) : list string := map id (windows s).

Definition focused_count (s : State) : nat :=
  List.length (filter isFocused (windows s)).

(** Every record's stacking value was handed out by the counter. *)
Definition z_bounded (s : State) : Prop :=
  Forall (fun w => zIndex w <= topZIndex s) (windows s).

(** No record is minimized and focused at once. *)
Definition minimized_unfocused (s : State) : Prop :=
  forall w, In w (windows s) -> isMinimized w = true -> isFocused w = false.

(** Equality of every field except [isFocused]. *)
Definition same_but_focus (w w' : WindowState) : Prop :=
  id w' = id w /\ title w' = title w /\ icon w' = icon w /\
  x w' = x w /\ y w' = y w /\ width w' = width w /\ height w' = height w /\
  minWidth w' = minWidth w /\ minHeight w' = minHeight w /\
  isMinimized w' = isMinimized w /\ isMaximized w' = isMaximized w /\
  zIndex w' = zIndex w /\ content w' = content w.

(** Equality of every field except [isFocused] and [zIndex]. *)
Definition same_but_focus_z (w w' : WindowState) : Prop :=
  id w' = id w /\ title w' = title w /\ icon w' = icon w /\
  x w' = x w /\ y w' = y w /\ width w' = width w /\ height w' = height w /\
  minWidth w' = minWidth w /\ minHeight w' = minHeight w /\
  isMinimized w' = isMinimized w /\ isMaximized w' = isMaximized w /\
  content w' = content w.

End Model.

Arguments mkWindowState {ReactNode number}.
Arguments mkWindowDescriptor {ReactNode number}.
Arguments mkState {ReactNode number}.
Arguments initial {ReactNode number}.
Arguments id {ReactNode number}.
Arguments title {ReactNode number}.
Arguments icon {ReactNode number}.
Arguments x {ReactNode number}.
Arguments y {ReactNode number}.
Arguments width {ReactNode number}.
Arguments height {ReactNode number}.
Arguments minWidth {ReactNode number}.
Arguments minHeight {ReactNode number}.
Arguments isMinimized {ReactNode number}.
Arguments isMaximized {ReactNode number}.
Arguments isFocused {ReactNode number}.
Arguments zIndex {ReactNode number}.
Arguments content {ReactNode number}.
Arguments d_id {ReactNode number}.
Arguments d_title {ReactNode number}.
Arguments d_icon {ReactNode number}.
Arguments d_x {ReactNode number}.
Arguments d_y {ReactNode number}.
Arguments d_width {ReactNode number}.
Arguments d_height {ReactNode number}.
Arguments d_minWidth {ReactNode number}.
Arguments d_minHeight {ReactNode number}.
Arguments d_isMinimized {ReactNode number}.
Arguments d_isMaximized {ReactNode number}.
Arguments d_content {ReactNode number}.
Arguments windows {ReactNode number}.
Arguments topZIndex {ReactNode number}.
Arguments with_isFocused {ReactNode number}.
Arguments with_isMinimized {ReactNode number}.
Arguments with_isMaximized {ReactNode number}.
Arguments with_zIndex {ReactNode number}.
Arguments with_position {ReactNode number}.
Arguments with_size {ReactNode number}.
Arguments of_descriptor {ReactNode number}.
Arguments has_id {ReactNode number}.
Arguments openWindow {ReactNode number}.
Arguments closeWindow {ReactNode number}.
Arguments minimizeWindow {ReactNode number}.
Arguments maximizeWindow {ReactNode number}.
Arguments restoreWindow {ReactNode number}.
Arguments focusWindow {ReactNode number}.
Arguments updateWindowPosition {ReactNode number}.
Arguments updateWindowSize {ReactNode number}.
Arguments Open {ReactNode number}.
Arguments Close {ReactNode number}.
Arguments Minimize {ReactNode number}.
Arguments Maximize {ReactNode number}.
Arguments Restore {ReactNode number}.
Arguments Focus {ReactNode number}.
Arguments Move {ReactNode number}.
Arguments Resize {ReactNode number}.
Arguments step {ReactNode number}.
Arguments run {ReactNode number}.
Arguments trace {ReactNode number}.
Arguments reachable {ReactNode number}.
Arguments reachable_initial {ReactNode number}.
Arguments reachable_step {ReactNode number}.
Arguments handleWindowClick {ReactNode number}.
Arguments respects_minimized {ReactNode number}.
Arguments reachable_guarded {ReactNode number}.
Arguments guarded_initial {ReactNode number}.
Arguments guarded_step {ReactNode number}.
Arguments ids {ReactNode number}.
Arguments focused_count {ReactNode number}.
Arguments same_but_focus_z {ReactNode number}.
Arguments same_but_focus {ReactNode number}.
Arguments z_bounded {ReactNode number}.
Arguments minimized_unfocused {ReactNode number}.

End WindowManager.

(* ===================================================================== *)
(** ** Folder view: click classification *)
(* ===================================================================== *)

Module FolderView.

Section Model.

(** The type of the [onOpen] callbacks, [() => void] in the source.  What a
    callback does is the caller's business. *)
Variable Callback : Type.

Inductive ItemType : Type := folder | file | app.

Inductive IconTag : Type := icon_folder | icon_document | icon_chat.

(** [FolderItem]; [icon] and [onOpen] are optional. *)
Record FolderItem : Type := mkFolderItem {
  id : string;
  name : string;
  type : ItemType;
  icon : option IconTag;
  onOpen : option Callback
}.

(** A [setTimeout] that has neither run nor been cleared: its handle, the
    instant it is due, and the [item] its callback closes over. *)
Record Timer : Type := mkTimer {
  handle : nat;
  due : Z;
  item : FolderItem
}.

(** What the handler does to the outside, in order:
    - [SingleClick i]: the deferred branch (breadcrumb "Folder item
      selected", [setSelectedId]);
    - [DoubleClick i]: the second-click branch (breadcrumb "Folder item
      opened", [setSelectedId]);
    - [Invoke i cb]: the call [item.onOpen?.()] of the item with id [i]. *)
Inductive Effect : Type :=
| SingleClick (i : string)
| DoubleClick (i : string)
| Invoke (i : string) (cb : Callback).

(** The component's state, the three refs, and the timers of the host. *)
Record State : Type := mkState {
  selectedId : option string;
  clickTimeoutRef : option nat;
  clickCountRef : nat;
  lastClickedIdRef : option string;
  timers : list Timer;
  nextHandle : nat;
  log : list Effect
}.

(** Handles are truthy: the host numbers timers from 1. *)
Definition initial : State := mkState None None 0 None [] 1 [].

(** The delay passed to [setTimeout], line 79. *)
Definition delay : Z := 250.

(** [clearTimeout(h)]: forget the timer; nothing happens if it already ran
    or was cleared. *)
Definition clearTimeout (h : nat) (ts : list Timer) : list Timer :=
  filter (fun t => negb (Nat.eqb (handle t) h)) ts.

(** [if (clickTimeoutRef.current) clearTimeout(clickTimeoutRef.current)]. *)
Definition clear_ref (st : State) : list Timer :=
  match clickTimeoutRef st with
  | Some h => clearTimeout h (timers st)
  | None => timers st
  end.

(** [lastClickedIdRef.current !== item.id]. *)
Definition differs (last : option string) (i : string) : bool :=
  match last with
  | Some l => negb (String.eqb l i)
  | None => true
  end.

(** The callback of lines 64-79, for the timer [t]. *)
Definition on_timeout (t : Timer) (st : State) : State :=
  if Nat.eqb (clickCountRef st) 1 then
    mkState (Some (id (item t))) (clickTimeoutRef st) 0 (lastClickedIdRef st)
      (timers st) (nextHandle st) (log st ++ [SingleClick (id (item t))])
  else
    mkState (selectedId st) (clickTimeoutRef st) 0 (lastClickedIdRef st)
      (timers st) (nextHandle st) (log st).

(** [item.onOpen?.()]. *)
Definition call_onOpen (it : FolderItem) : list Effect :=
  match onOpen it with
  | Some cb => [Invoke (id it) cb]
  | None => []
  end.

(** [handleItemClick], lines 47-98, run at the instant [now]. *)
Definition handleItemClick (now : Z) (it : FolderItem) (st : State) : State :=
  let reset := differs (lastClickedIdRef st) (id it) in
  let count0 := if reset then 0%nat else clickCountRef st in
  let timers0 := if reset then clear_ref st else timers st in
  let count1 := S count0 in
  if Nat.eqb count1 1 then
    mkState (selectedId st) (Some (nextHandle st)) count1 (Some (id it))
      (timers0 ++ [mkTimer (nextHandle st) (now + delay) it])
      (S (nextHandle st)) (log st)
  else if Nat.eqb count1 2 then
    mkState (Some (id it)) (clickTimeoutRef st) 0 (Some (id it))
      (match clickTimeoutRef st with
       | Some h => clearTimeout h timers0
       | None => timers0
       end)
      (nextHandle st) (log st ++ [DoubleClick (id it)] ++ call_onOpen it)
  else
    mkState (selectedId st) (clickTimeoutRef st) count1 (Some (id it))
      timers0 (nextHandle st) (log st).

(** A click as the host delivers it: the instant its handler runs, the
    item, and how the host orders it against a timer that falls due at
    that very instant.  The source fixes no order between the two; hosts
    are seen to run either first. *)
Record Click : Type := mkClick {
  at_time : Z;
  on_item : FolderItem;
  timer_first : bool
}.

(** Whether the callback of [t] has run by the time a handler runs at
    [now]: it has when [t] fell due before [now], and at the due instant
    itself when the host puts the timer first. *)
Definition is_due (timer_wins : bool) (now : Z) (t : Timer) : bool :=
  if timer_wins then due t <=? now else due t <? now.

Definition set_timers (ts : list Timer) (st : State) : State :=
  mkState (selectedId st) (clickTimeoutRef st) (clickCountRef st)
    (lastClickedIdRef st) ts (nextHandle st) (log st).

(** Run the callbacks of the timers selected by [ready], oldest first. *)
Definition fire (ready : Timer -> bool) (st : State) : State :=
  let (now_ready, later) := partition ready (timers st) in
  fold_left (fun s t => on_timeout t s) now_ready (set_timers later st).

(** The click [c]: the callbacks of the timers that have run by then, then
    the handler. *)
Definition click (c : Click) (st : State) : State :=
  handleItemClick (at_time c) (on_item c)
    (fire (is_due (timer_first c) (at_time c)) st).

(** Let every pending timer run: the view at rest. *)
Definition settle (st : State) : State := fire (fun _ => true) st.

(** A sequence of clicks on a fresh view, then rest. *)
Definition play (clicks : list Click) : State :=
  settle (fold_left (fun st c => click c st) clicks initial).

(** The click [c] is handled before the callback of a timer armed at
    [armed]: it comes within the delay, at the due instant only when the
    host puts the click first. *)
Definition beats_timer (armed : Z) (c : Click) : Prop :=
  at_time c < armed + 250 \/
  (at_time c = armed + 250 /\ timer_first c = false).

(** The click [c] is handled after that callback. *)
Definition after_timer (armed : Z) (c : Click) : Prop :=
  armed + 250 < at_time c \/
  (at_time c = armed + 250 /\ timer_first c = true).

(** Number of [onOpen] invocations of the item with id [i]. *)
Definition is_invoke_of (i : string) (e : Effect) : bool :=
  match e with
  | Invoke j _ => String.eqb j i
  | _ => false
  end.

Definition onOpen_calls (i : string) (l : list Effect) : nat :=
  List.length (filter (is_invoke_of i) l).

End Model.

Arguments mkFolderItem {Callback}.
Arguments id {Callback}.
Arguments name {Callback}.
Arguments type {Callback}.
Arguments icon {Callback}.
Arguments onOpen {Callback}.
Arguments mkTimer {Callback}.
Arguments handle {Callback}.
Arguments due {Callback}.
Arguments item {Callback}.
Arguments SingleClick {Callback}.
Arguments DoubleClick {Callback}.
Arguments Invoke {Callback}.
Arguments mkState {Callback}.
Arguments selectedId {Callback}.
Arguments clickTimeoutRef {Callback}.
Arguments clickCountRef {Callback}.
Arguments lastClickedIdRef {Callback}.
Arguments timers {Callback}.
Arguments nextHandle {Callback}.
Arguments log {Callback}.
Arguments initial {Callback}.
Arguments clearTimeout {Callback}.
Arguments clear_ref {Callback}.
Arguments on_timeout {Callback}.
Arguments call_onOpen {Callback}.
Arguments handleItemClick {Callback}.
Arguments mkClick {Callback}.
Arguments at_time {Callback}.
Arguments on_item {Callback}.
Arguments timer_first {Callback}.
Arguments is_due {Callback}.
Arguments set_timers {Callback}.
Arguments fire {Callback}.
Arguments click {Callback}.
Arguments settle {Callback}.
Arguments play {Callback}.
Arguments beats_timer {Callback}.
Arguments after_timer {Callback}.
Arguments is_invoke_of {Callback}.
Arguments onOpen_calls {Callback}.

End FolderView.

(* ===================================================================== *)
(** ** Chat relay endpoint *)
(* ===================================================================== *)

Module ChatRoute.

Definition nl : string := String (ascii_of_nat 10) EmptyString.

(** The template literal of lines 5-19. *)
Definition SYSTEM_PROMPT : string :=
  "You are a helpful personal assistant designed to help with general research, questions, and tasks."
  ++ nl ++ nl ++
  "Your role is to:" ++ nl ++
  "- Answer questions on any topic accurately and thoroughly" ++ nl ++
  "- Help with research by searching the web for current information" ++ nl ++
  "- Assist with writing, editing, and brainstorming" ++ nl ++
  "- Provide explanations and summaries of complex topics" ++ nl ++
  "- Help solve problems and think through decisions" ++ nl ++ nl ++
  "Guidelines:" ++ nl ++
  "- Be friendly, clear, and conversational" ++ nl ++
  "- Use web search when you need current information, facts you're unsure about, or real-time data"
  ++ nl ++
  "- Keep responses concise but complete - expand when the topic warrants depth"
  ++ nl ++
  "- Use markdown formatting when it helps readability (bullet points, code blocks, etc.)"
  ++ nl ++
  "- Be honest when you don't know something and offer to search for answers".

(** A number of the body, as far as the handler can tell numbers apart:
    whether it is falsy (0 or -0) and the text string conversion gives for
    it. *)
Record JsNumber : Type := mkJsNumber {
  is_zero : bool;
  number_text : string
}.

(** What [request.json()] produces.  An object is given by the members of
    its JSON text, in order; when a key is repeated the last member is the
    one the object keeps. *)
#[warnings="-register-all"]
Inductive Json : Type :=
| JNull
| JBool (b : bool)
| JNumber (n : JsNumber)
| JString (s : string)
| JArray (elements : list Json)
| JObject (members : list (string * Json)).

(** The own property [k] of an object with the members [ps]. *)
Fixpoint own_property (k : string) (ps : list (string * Json))
  : option Json :=
  match ps with
  | [] => None
  | (k', v) :: rest =>
      match own_property k rest with
      | Some later => Some later
      | None => if String.eqb k' k then Some v else None
      end
  end.

(** [v.k] for the keys the handler reads ([messages], [role], [content]),
    none of which is found on a prototype: a [TypeError] ([None]) on
    [null], the own property of an object, [undefined] ([Some None])
    otherwise. *)
Definition member (v : Json) (k : string) : option (option Json) :=
  match v with
  | JNull => None
  | JObject ps => Some (own_property k ps)
  | _ => Some None
  end.

(** JavaScript truthiness of a value that may be [undefined], for
    [!messages]. *)
Definition truthy (v : option Json) : bool :=
  match v with
  | None | Some JNull => false
  | Some (JBool b) => b
  | Some (JNumber n) => negb (is_zero n)
  | Some (JString s) => negb (String.eqb s "")
  | Some (JArray _) | Some (JObject _) => true
  end.

Definition isArray (v : option Json) : bool :=
  match v with
  | Some (JArray _) => true
  | _ => false
  end.

Definition elements_of (v : option Json) : list Json :=
  match v with
  | Some (JArray l) => l
  | _ => []
  end.

(** What [await request.json()] gives: it throws (the body is no JSON), or
    it returns the parsed body. *)
Inductive RequestJson : Type :=
| Throws
| Body (body : Json).

(** [MessageInput], the type the source asserts for the elements of
    [messages], and the JSON of such a message. *)
Record MessageInput : Type := mkMessageInput {
  role : string;
  content : string
}.

Definition of_message (m : MessageInput) : Json :=
  JObject [("role", JString (role m)); ("content", JString (content m))].

(** The body [{ messages: [...] }]. *)
Definition request_body (messages : list Json) : Json :=
  JObject [("messages", JArray messages)].

(** *** The upstream runtime *)

(** The parts of an SDK message that the loop of lines 124-202 reads.
    Fields the message does not have are [None]. *)
Record Delta : Type := mkDelta {
  delta_type : string;
  text : string
}.

Record RawEvent : Type := mkRawEvent {
  event_type : string;
  delta : option Delta
}.

Record Block : Type := mkBlock {
  block_type : string;
  block_name : string
}.

(** [message_content] is [Some blocks] when the message has a [message]
    whose [content] is an array. *)
Record SDKMessage : Type := mkSDKMessage {
  type : string;
  event : option RawEvent;
  message_content : option (list Block);
  tool_name : string;
  elapsed_time_seconds : Q;
  subtype : string
}.

(** The options object of lines 110-121 ([cwd] is the server's working
    directory and is left out). *)
Record QueryCall : Type := mkQueryCall {
  prompt : string;
  maxTurns : Z;
  tools_preset : string;
  permissionMode : string;
  allowDangerouslySkipPermissions : bool;
  includePartialMessages : bool
}.

(** One run of the async iterator returned by [query]: the messages it
    yields, then either its end or an exception. *)
Record Upstream : Type := mkUpstream {
  yielded : list SDKMessage;
  throws : bool
}.

(** *** The stream sent to the caller *)

(** The objects passed to [JSON.stringify]. *)
Inductive SseEvent : Type :=
| text_delta (text : string)
| tool_start (tool : string)
| tool_progress (tool : string) (elapsed : Q)
| done
| error (message : string).

(** One [controller.enqueue]: [Data e] is the chunk
    [data: ${JSON.stringify(e)}] followed by two newlines, [DataDone] is the
    literal chunk [data: [DONE]] followed by two newlines.  A stringified
    object starts with a brace, so the two never coincide. *)
Inductive Chunk : Type :=
| Data (e : SseEvent)
| DataDone.

(** Lines 124-133. *)
Definition on_stream_event (m : SDKMessage) : list Chunk :=
  if String.eqb (type m) "stream_event" then
    match event m with
    | Some ev =>
        if String.eqb (event_type ev) "content_block_delta" then
          match delta ev with
          | Some d =>
              if String.eqb (delta_type d) "text_delta"
              then [Data (text_delta (text d))]
              else []
          | None => []
          end
        else []
    | None => []
    end
  else [].

(** Lines 136-157. *)
Definition on_assistant (m : SDKMessage) : list Chunk :=
  if String.eqb (type m) "assistant" then
    match message_content m with
    | Some blocks =>
        flat_map (fun b =>
                    if String.eqb (block_type b) "tool_use"
                    then [Data (tool_start (block_name b))]
                    else []) blocks
    | None => []
    end
  else [].

(** Lines 160-164. *)
Definition on_tool_progress (m : SDKMessage) : list Chunk :=
  if String.eqb (type m) "tool_progress"
  then [Data (tool_progress (tool_name m) (elapsed_time_seconds m))]
  else [].

(** Lines 167-187. *)
Definition on_success (m : SDKMessage) : list Chunk :=
  if String.eqb (type m) "result" && String.eqb (subtype m) "success"
  then [Data done]
  else [].

(** Lines 190-202. *)
Definition on_failure (m : SDKMessage) : list Chunk :=
  if String.eqb (type m) "result" && negb (String.eqb (subtype m) "success")
  then [Data (error "Query did not complete successfully")]
  else [].

(** The body of the [for await] loop: five independent [if]s. *)
Definition on_message (m : SDKMessage) : list Chunk :=
  on_stream_event m ++ on_assistant m ++ on_tool_progress m ++
  on_success m ++ on_failure m.

(** [start(controller)], lines 95-223: everything enqueued before
    [controller.close()].  The [try] branch ends with the literal chunk; the
    [catch] branch ends with an error event. *)
Definition start (u : Upstream) : list Chunk :=
  flat_map on_message (yielded u) ++
  (if throws u
   then [Data (error "Stream error occurred")]
   else [DataDone]).

(** *** The handler *)

Inductive Response : Type :=
| JsonError (status : Z) (error_text : string)
| EventStream (chunks : list Chunk).

(** What a call of the handler amounts to: the response, and the upstream
    connections it opened. *)
Record Outcome : Type := mkOutcome {
  response : Response;
  queries : list QueryCall
}.

(** [Array.prototype.pop] on a fresh array: its last element, if any. *)
Definition pop {A : Type} (l : list A) : option A :=
  nth_error l (List.length l - 1).

(** [m.role === 'user'], for an element that is not [null]. *)
Definition is_user (m : Json) : bool :=
  match member m "role" with
  | Some (Some (JString r)) => String.eqb r "user"
  | _ => false
  end.

(** Line 57, [messages.filter(m => m.role === 'user')]: reading [role] of
    a [null] element throws ([None]). *)
Fixpoint filter_users (ms : list Json) : option (list Json) :=
  match ms with
  | [] => Some []
  | JNull :: _ => None
  | m :: rest =>
      match filter_users rest with
      | Some users => Some (if is_user m then m :: users else users)
      | None => None
      end
  end.

(** All the texts, unless one conversion threw. *)
Fixpoint all_texts (l : list (option string)) : option (list string) :=
  match l with
  | [] => Some []
  | Some x :: rest =>
      match all_texts rest with
      | Some xs => Some (x :: xs)
      | None => None
      end
  | None :: _ => None
  end.

(** String conversion of a value inside a template literal.  An array is
    its elements joined by commas, [null] elements as the empty string; an
    object is [[object Object]], unless it has an own [toString], which
    coming from JSON is no function and makes the conversion throw
    ([None]). *)
Fixpoint to_text (v : Json) : option string :=
  match v with
  | JNull => Some "null"
  | JBool true => Some "true"
  | JBool false => Some "false"
  | JNumber n => Some (number_text n)
  | JString s => Some s
  | JArray l =>
      match all_texts (map (fun e => match e with
                                     | JNull => Some ""
                                     | _ => to_text e
                                     end) l) with
      | Some texts => Some (String.concat "," texts)
      | None => None
      end
  | JObject ps =>
      match own_property "toString" ps with
      | Some _ => None
      | None => Some "[object Object]"
      end
  end.

(** [`${m.content}`]: [undefined] reads "undefined". *)
Definition content_text (m : Json) : option string :=
  match member m "content" with
  | None => None
  | Some None => Some "undefined"
  | Some (Some v) => to_text v
  end.

(** Line 85. *)
Definition render (m : Json) : option string :=
  match content_text m with
  | Some text => Some ((if is_user m then "User" else "Assistant") ++ ": "
                       ++ text)
  | None => None
  end.

(** Lines 83-86: [slice(0, -1)], [map], [join]. *)
Definition conversationContext (messages : list Json) : option string :=
  match all_texts (map render (removelast messages)) with
  | Some lines => Some (String.concat (nl ++ nl) lines)
  | None => None
  end.

(** Lines 88-90, from the transcript and the text of the last user
    message's content; the empty string is falsy. *)
Definition fullPrompt (context lastContent : string) : string :=
  if negb (String.eqb context "") then
    SYSTEM_PROMPT ++ nl ++ nl ++ "Previous conversation:" ++ nl ++
    context ++ nl ++ nl ++ "User: " ++ lastContent
  else
    SYSTEM_PROMPT ++ nl ++ nl ++ "User: " ++ lastContent.

Definition query_call (p : string) : QueryCall :=
  mkQueryCall p 10 "claude_code" "bypassPermissions" true true.

(** The outer [catch], lines 233-249. *)
Definition server_error : Outcome :=
  mkOutcome
    (JsonError 500
       "Failed to process chat request. Check server logs for details.")
    [].

(** [lastUserMessage.content.length], line 78: reading [length] of
    [undefined] or [null] throws. *)
Definition content_has_length (m : Json) : bool :=
  match member m "content" with
  | Some (Some JNull) | Some None | None => false
  | Some (Some _) => true
  end.

(** [POST], lines 26-251.  [query] stands for the SDK function: what the
    upstream runtime does with a given call.  Whatever throws before the
    stream exists ends in the outer [catch]. *)
Definition POST (query : QueryCall -> Upstream) (request : RequestJson)
  : Outcome :=
  match request with
  | Throws => server_error
  | Body body =>
      match member body "messages" with
      | None => server_error
      | Some messages =>
          if negb (truthy messages) || negb (isArray messages) then
            mkOutcome (JsonError 400 "Messages array is required") []
          else
            let msgs := elements_of messages in
            match filter_users msgs with
            | None => server_error
            | Some users =>
                match pop users with
                | None =>
                    mkOutcome (JsonError 400 "No user message found") []
                | Some lastUserMessage =>
                    if content_has_length lastUserMessage then
                      match conversationContext msgs,
                            content_text lastUserMessage with
                      | Some context, Some lastContent =>
                          let call :=
                            query_call (fullPrompt context lastContent) in
                          mkOutcome (EventStream (start (query call)))
                                    [call]
                      | _, _ => server_error
                      end
                    else server_error
                end
            end
      end
  end.

End ChatRoute.

(* ===================================================================== *)
(** ** Concrete data used to exercise the model *)
(* ===================================================================== *)

Module Samples.

(** Two windows as the desktop opens them: contents named by a string,
    geometry in whole pixels. *)
Definition chat_window : WindowManager.WindowDescriptor string Z :=
  WindowManager.mkWindowDescriptor
    "chat" "Chat" "chat" 120 80 480 560 320 400 false false "<Chat />".

Definition notes_window : WindowManager.WindowDescriptor string Z :=
  WindowManager.mkWindowDescriptor
    "notes" "Notes" "document" 200 120 500 400 300 200 false false
    "<Notepad />".

(** The chat window asked for again, with another place and size. *)
Definition chat_window_again : WindowManager.WindowDescriptor string Z :=
  WindowManager.mkWindowDescriptor
    "chat" "Chat (2)" "folder" 0 0 900 700 10 10 true true "<Other />".

Definition chat_open : WindowManager.State string Z :=
  WindowManager.step (WindowManager.Open chat_window) WindowManager.initial.

Definition chat_minimized : WindowManager.State string Z :=
  WindowManager.run
    [WindowManager.Open chat_window; WindowManager.Minimize "chat"]
    WindowManager.initial.

Definition chat_minimized_then_focused : WindowManager.State string Z :=
  WindowManager.run
    [WindowManager.Open chat_window; WindowManager.Minimize "chat";
     WindowManager.Focus "chat"]
    WindowManager.initial.

(** Two folder items with callbacks named by a string. *)
Definition agents_item : FolderView.FolderItem string :=
  FolderView.mkFolderItem "agents" "Agents" FolderView.folder
    (Some FolderView.icon_folder) (Some "open agents").

Definition readme_item : FolderView.FolderItem string :=
  FolderView.mkFolderItem "readme" "README.md" FolderView.file
    (Some FolderView.icon_document) (Some "open readme").

(** Chat requests and upstream runs. *)
Definition hello_request : ChatRoute.RequestJson :=
  ChatRoute.Body
    (ChatRoute.request_body
       [ChatRoute.of_message (ChatRoute.mkMessageInput "user" "hello")]).

Definition assistant_only : list ChatRoute.MessageInput :=
  [ChatRoute.mkMessageInput "assistant" "hi"].

Definition success_result : ChatRoute.SDKMessage :=
  ChatRoute.mkSDKMessage "result" None None "" 0 "success".

Definition succeeding_runtime (_ : ChatRoute.QueryCall)
  : ChatRoute.Upstream :=
  ChatRoute.mkUpstream [success_result] false.

(** The iterator throws before yielding anything. *)
Definition failing_runtime (_ : ChatRoute.QueryCall) : ChatRoute.Upstream :=
  ChatRoute.mkUpstream [] true.

End Samples.

(* ===================================================================== *)
(** ** Readers of the window set *)
(* ===================================================================== *)

Module WindowViews.

Section Model.

Variables (ReactNode number : Type).

(** The three gauges of the effect of [WindowManager.tsx], lines 36-43:
    [window.count.total], [window.count.open], [window.count.minimized]. *)
Record WindowCounts : Type := mkWindowCounts {
  count_total : nat;
  count_open : nat;
  count_minimized : nat
}.

Definition window_counts (s : WindowManager.State ReactNode number)
  : WindowCounts :=
  mkWindowCounts
    (List.length (WindowManager.windows s))
    (List.length
       (filter (fun w => negb (WindowManager.isMinimized w))
               (WindowManager.windows s)))
    (List.length
       (filter WindowManager.isMinimized (WindowManager.windows s))).

(** [Taskbar.tsx], line 61: the entry drawn as the active one,
    [win.isFocused && !win.isMinimized]. *)
Definition highlighted (win : WindowManager.WindowState ReactNode number)
  : bool :=
  WindowManager.isFocused win && negb (WindowManager.isMinimized win).

(** [Taskbar.tsx], line 57: the [onClick] of the button drawn for [win],
    [handleWindowClick(win.id, win.isMinimized)]. *)
Definition button_click (win : WindowManager.WindowState ReactNode number)
           (s : WindowManager.State ReactNode number)
  : WindowManager.State ReactNode number :=
  WindowManager.handleWindowClick (WindowManager.id win)
    (WindowManager.isMinimized win) s.

(** The operations that go through [setTopZIndex] and take a new stacking
    value: [openWindow], [restoreWindow], [focusWindow]. *)
Definition takes_stacking_value (o : WindowManager.Op ReactNode number)
  : bool :=
  match o with
  | WindowManager.Open _ | WindowManager.Restore _ | WindowManager.Focus _ =>
      true
  | _ => false
  end.

(** Stacking values that are pairwise distinct and lie above 100 and at
    most at [top]. *)
Definition stacked (top : Z)
           (l : list (WindowManager.WindowState ReactNode number)) : Prop :=
  NoDup (map WindowManager.zIndex l) /\
  Forall (fun w => 100 < WindowManager.zIndex w <= top) l.

(** Equality of every field except [isMaximized]. *)
Definition same_but_maximized
           (w w' : WindowManager.WindowState ReactNode number) : Prop :=
  WindowManager.id w' = WindowManager.id w /\
  WindowManager.title w' = WindowManager.title w /\
  WindowManager.icon w' = WindowManager.icon w /\
  WindowManager.x w' = WindowManager.x w /\
  WindowManager.y w' = WindowManager.y w /\
  WindowManager.width w' = WindowManager.width w /\
  WindowManager.height w' = WindowManager.height w /\
  WindowManager.minWidth w' = WindowManager.minWidth w /\
  WindowManager.minHeight w' = WindowManager.minHeight w /\
  WindowManager.isMinimized w' = WindowManager.isMinimized w /\
  WindowManager.isFocused w' = WindowManager.isFocused w /\
  WindowManager.zIndex w' = WindowManager.zIndex w /\
  WindowManager.content w' = WindowManager.content w.

(** Equality of every field except the position. *)
Definition same_but_position
           (w w' : WindowManager.WindowState ReactNode number) : Prop :=
  WindowManager.id w' = WindowManager.id w /\
  WindowManager.title w' = WindowManager.title w /\
  WindowManager.icon w' = WindowManager.icon w /\
  WindowManager.width w' = WindowManager.width w /\
  WindowManager.height w' = WindowManager.height w /\
  WindowManager.minWidth w' = WindowManager.minWidth w /\
  WindowManager.minHeight w' = WindowManager.minHeight w /\
  WindowManager.isMinimized w' = WindowManager.isMinimized w /\
  WindowManager.isMaximized w' = WindowManager.isMaximized w /\
  WindowManager.isFocused w' = WindowManager.isFocused w /\
  WindowManager.zIndex w' = WindowManager.zIndex w /\
  WindowManager.content w' = WindowManager.content w.

(** Equality of every field except the size. *)
Definition same_but_size
           (w w' : WindowManager.WindowState ReactNode number) : Prop :=
  WindowManager.id w' = WindowManager.id w /\
  WindowManager.title w' = WindowManager.title w /\
  WindowManager.icon w' = WindowManager.icon w /\
  WindowManager.x w' = WindowManager.x w /\
  WindowManager.y w' = WindowManager.y w /\
  WindowManager.minWidth w' = WindowManager.minWidth w /\
  WindowManager.minHeight w' = WindowManager.minHeight w /\
  WindowManager.isMinimized w' = WindowManager.isMinimized w /\
  WindowManager.isMaximized w' = WindowManager.isMaximized w /\
  WindowManager.isFocused w' = WindowManager.isFocused w /\
  WindowManager.zIndex w' = WindowManager.zIndex w /\
  WindowManager.content w' = WindowManager.content w.

End Model.

Arguments mkWindowCounts : clear implicits.
Arguments window_counts {ReactNode number}.
Arguments highlighted {ReactNode number}.
Arguments button_click {ReactNode number}.
Arguments takes_stacking_value {ReactNode number}.
Arguments stacked {ReactNode number}.
Arguments same_but_maximized {ReactNode number}.
Arguments same_but_position {ReactNode number}.
Arguments same_but_size {ReactNode number}.

End WindowViews.

(* ===================================================================== *)
(** ** Folder view: runs of clicks *)
(* ===================================================================== *)

Module FolderRuns.

Section Model.

Variable Callback : Type.

(** The view after a sequence of clicks, before it comes to rest. *)
Definition after_clicks (clicks : list (FolderView.Click Callback))
           (st : FolderView.State Callback) : FolderView.State Callback :=
  fold_left (fun s c => FolderView.click c s) clicks st.

(** Between two handlers the refs and the host's timers are in one of two
    shapes: nothing is pending, or one click is counted and its timer, the
    one [clickTimeoutRef] holds, is the only one pending and belongs to the
    item clicked last. *)
Definition idle (st : FolderView.State Callback) : Prop :=
  FolderView.clickCountRef st = 0%nat /\ FolderView.timers st = [].

Definition pending_single (st : FolderView.State Callback) : Prop :=
  FolderView.clickCountRef st = 1%nat /\
  exists t,
    FolderView.timers st = [t] /\
    FolderView.clickTimeoutRef st = Some (FolderView.handle t) /\
    FolderView.lastClickedIdRef st
    = Some (FolderView.id (FolderView.item t)).

Definition between_clicks (st : FolderView.State Callback) : Prop :=
  idle st \/ pending_single st.

End Model.

Arguments after_clicks {Callback}.
Arguments idle {Callback}.
Arguments pending_single {Callback}.
Arguments between_clicks {Callback}.

End FolderRuns.

(* ===================================================================== *)
(** ** Chat relay endpoint: reading a stream *)
(* ===================================================================== *)

Module ChatStream.

(** What the upstream iterator has been relayed as, before the closing
    chunk. *)
Definition relayed (ms : list ChatRoute.SDKMessage) : list ChatRoute.Chunk :=
  flat_map ChatRoute.on_message ms.

(** The text fragments carried by a stream, in order. *)
Definition texts_of (chunks : list ChatRoute.Chunk) : list string :=
  flat_map (fun c =>
              match c with
              | ChatRoute.Data (ChatRoute.text_delta t) => [t]
              | _ => []
              end) chunks.

(** The tools announced by a stream, in order. *)
Definition tools_started (chunks : list ChatRoute.Chunk) : list string :=
  flat_map (fun c =>
              match c with
              | ChatRoute.Data (ChatRoute.tool_start t) => [t]
              | _ => []
              end) chunks.

(** A partial message of the SDK carrying the text fragment [t]. *)
Definition text_message (t : string) : ChatRoute.SDKMessage :=
  ChatRoute.mkSDKMessage "stream_event"
    (Some (ChatRoute.mkRawEvent "content_block_delta"
             (Some (ChatRoute.mkDelta "text_delta" t))))
    None "" 0 "".

(** An assistant message with the content [blocks]. *)
Definition assistant_message (blocks : list ChatRoute.Block)
  : ChatRoute.SDKMessage :=
  ChatRoute.mkSDKMessage "assistant" None (Some blocks) "" 0 "".

(** The names of the [tool_use] blocks of a content array. *)
Definition tool_uses (blocks : list ChatRoute.Block) : list string :=
  map ChatRoute.block_name
      (filter (fun b => String.eqb (ChatRoute.block_type b) "tool_use")
              blocks).

(** The message types the loop reacts to. *)
Definition handled_type (t : string) : bool :=
  String.eqb t "stream_event" || String.eqb t "assistant" ||
  String.eqb t "tool_progress" || String.eqb t "result".

Definition is_stream (r : ChatRoute.Response) : bool :=
  match r with
  | ChatRoute.EventStream _ => true
  | ChatRoute.JsonError _ _ => false
  end.

End ChatStream.

(* ===================================================================== *)
(** ** Metrics wrapper *)
(* ===================================================================== *)

Module Metrics.

(** The values that end up in a breadcrumb's [data]. *)
Inductive JsVal : Type :=
| VUndefined
| VNumber (q : Q)
| VString (s : string).

(** A plain object: its own properties, one binding per key. *)
Definition JsObject : Type := list (string * JsVal).

(** [o[k]]. *)
Fixpoint obj_get (k : string) (o : JsObject) : option JsVal :=
  match o with
  | [] => None
  | (k', v) :: rest => if String.eqb k' k then Some v else obj_get k rest
  end.

(** [o[k] = v]: a key that exists keeps its place, a new one goes last.
    (JavaScript lists integer-like keys first; the order of the keys is
    not used below, only what [obj_get] finds.) *)
Fixpoint obj_set (k : string) (v : JsVal) (o : JsObject) : JsObject :=
  match o with
  | [] => [(k, v)]
  | (k', v') :: rest =>
      if String.eqb k' k then (k', v) :: rest
      else (k', v') :: obj_set k v rest
  end.

(** [{ ...target, ...src }]: the properties of [src] are assigned in
    order. *)
Definition spread (target src : JsObject) : JsObject :=
  fold_left (fun o kv => obj_set (fst kv) (snd kv) o) src target.

(** [options?: { tags?: Record<string, string>; unit?: string }]. *)
Record Options : Type := mkOptions {
  tags : option (list (string * string));
  unit : option string
}.

(** [options?.tags] as an object to spread; spreading [undefined] adds
    nothing. *)
Definition tags_object (options : option Options) : JsObject :=
  match options with
  | Some o =>
      match tags o with
      | Some ts => map (fun kv => (fst kv, VString (snd kv))) ts
      | None => []
      end
  | None => []
  end.

(** [options?.unit]. *)
Definition unit_value (options : option Options) : JsVal :=
  match options with
  | Some o =>
      match unit o with
      | Some u => VString u
      | None => VUndefined
      end
  | None => VUndefined
  end.

(** [Sentry.metrics]: absent, or an object in which each of the three
    names may or may not be a function. *)
Record MetricsApi : Type := mkMetricsApi {
  increment_is_function : bool;
  gauge_is_function : bool;
  distribution_is_function : bool
}.

Inductive MetricKind : Type := Increment | Gauge | Distribution.

(** The calls into the SDK. *)
Inductive Effect : Type :=
| MetricsCall (kind : MetricKind) (name : string) (value : Q)
              (options : option Options)
| AddBreadcrumb (category message level : string) (data : JsObject).

(** [Sentry.metrics && typeof Sentry.metrics.f === 'function']. *)
Definition available (sdk : option MetricsApi) (f : MetricsApi -> bool)
  : bool :=
  match sdk with
  | Some api => f api
  | None => false
  end.

Definition breadcrumb (name : string) (data : JsObject) : Effect :=
  AddBreadcrumb "metric" ("Metric: " ++ name) "debug" data.

(** [metrics.increment], lines 5-18; [value] defaults to 1. *)
Definition increment (sdk : option MetricsApi) (name : string)
           (value : option Q) (options : option Options) : list Effect :=
  let v := match value with Some q => q | None => 1%Q end in
  if available sdk increment_is_function then
    [MetricsCall Increment name v options]
  else
    [breadcrumb name
       (spread [("metric", VString name); ("value", VNumber v);
                ("type", VString "increment")]
               (tags_object options))].

(** [metrics.gauge], lines 20-31. *)
Definition gauge (sdk : option MetricsApi) (name : string) (value : Q)
           (options : option Options) : list Effect :=
  if available sdk gauge_is_function then
    [MetricsCall Gauge name value options]
  else
    [breadcrumb name
       (spread [("metric", VString name); ("value", VNumber value);
                ("type", VString "gauge")]
               (tags_object options))].

(** [metrics.distribution], lines 33-44. *)
Definition distribution (sdk : option MetricsApi) (name : string)
           (value : Q) (options : option Options) : list Effect :=
  if available sdk distribution_is_function then
    [MetricsCall Distribution name value options]
  else
    [breadcrumb name
       (spread [("metric", VString name); ("value", VNumber value);
                ("type", VString "distribution");
                ("unit", unit_value options)]
               (tags_object options))].

(** The [data] of the breadcrumbs among some effects. *)
Definition breadcrumb_data (es : list Effect) : list JsObject :=
  flat_map (fun e =>
              match e with
              | AddBreadcrumb _ _ _ d => [d]
              | MetricsCall _ _ _ _ => []
              end) es.

End Metrics.

(* ===================================================================== *)
(** ** More concrete data *)
(* ===================================================================== *)

Module Scenarios.

(** Chat and notes open, notes on top. *)
Definition two_windows : WindowManager.State string Z :=
  WindowManager.run
    [WindowManager.Open Samples.chat_window;
     WindowManager.Open Samples.notes_window]
    WindowManager.initial.

(** The records of [two_windows]. *)
Definition chat_record : WindowManager.WindowState string Z :=
  WindowManager.with_isFocused false
    (WindowManager.of_descriptor Samples.chat_window 101).

Definition notes_record : WindowManager.WindowState string Z :=
  WindowManager.of_descriptor Samples.notes_window 102.

(** A folder item without an [onOpen]. *)
Definition plain_item : FolderView.FolderItem string :=
  FolderView.mkFolderItem "notes.txt" "notes.txt" FolderView.file None None.

Definition search_block : ChatRoute.Block :=
  ChatRoute.mkBlock "tool_use" "WebSearch".

Definition prose_block : ChatRoute.Block :=
  ChatRoute.mkBlock "text" "".

Definition system_message : ChatRoute.SDKMessage :=
  ChatRoute.mkSDKMessage "system" None None "" 0 "init".

Definition failed_result : ChatRoute.SDKMessage :=
  ChatRoute.mkSDKMessage "result" None None "" 0 "error_max_turns".

Definition conversation : list ChatRoute.MessageInput :=
  [ChatRoute.mkMessageInput "user" "hello";
   ChatRoute.mkMessageInput "assistant" "hi";
   ChatRoute.mkMessageInput "user" "what is the weather"].

(** [{ "messages": [null] }]. *)
Definition null_element_request : ChatRoute.RequestJson :=
  ChatRoute.Body (ChatRoute.request_body [ChatRoute.JNull]).

(** [{ "messages": [{ "role": "user" }] }]. *)
Definition contentless_message : ChatRoute.Json :=
  ChatRoute.JObject [("role", ChatRoute.JString "user")].

Definition contentless_request : ChatRoute.RequestJson :=
  ChatRoute.Body (ChatRoute.request_body [contentless_message]).

Definition close_tags : Metrics.Options :=
  Metrics.mkOptions (Some [("windowId", "chat")]) None.

Definition shadowing_tags : Metrics.Options :=
  Metrics.mkOptions (Some [("metric", "mine")]) None.

End Scenarios.

(* ===================================================================== *)
(** ** Window manager: properties *)
(* ===================================================================== *)

Section WindowManagerFacts.

Import WindowManager.

Variables (ReactNode number : Type).

Local Abbreviation WState := (WindowState ReactNode number).
Local Abbreviation MState := (State ReactNode number).
Local Abbreviation MOp := (Op ReactNode number).

Lemma has_id_true (i : string) (w : WState) :
  has_id i w = true <-> id w = i.
Proof. unfold has_id. apply String.eqb_eq. Qed.

Lemma has_id_false (i : string) (w : WState) :
  has_id i w = false <-> id w <> i.
Proof. unfold has_id. apply String.eqb_neq. Qed.

Lemma find_absent (i : string) (l : list WState) :
  ~ In i (map id l) -> find (has_id i) l = None.
Proof.
  induction l as [|a l IH]; simpl; intros H; [reflexivity|].
  destruct (has_id i a) eqn:E.
  - apply has_id_true in E. tauto.
  - apply IH. tauto.
Qed.

Lemma find_present (i : string) (l : list WState) :
  In i (map id l) -> exists w, find (has_id i) l = Some w.
Proof.
  induction l as [|a l IH]; simpl; intros H; [contradiction|].
  destruct (has_id i a) eqn:E; [eauto|].
  apply has_id_false in E. destruct H as [H|H]; [contradiction|auto].
Qed.

Lemma find_found (i : string) (l : list WState) (w : WState) :
  find (has_id i) l = Some w -> In w l /\ id w = i.
Proof.
  intros H. apply find_some in H. destruct H as [H1 H2].
  split; [assumption|]. now apply has_id_true.
Qed.

(** A [map] that leaves the records without id [i] alone does nothing when
    no record has that id. *)
Lemma map_absent (i : string) (f : WState -> WState) (l : list WState) :
  ~ In i (map id l) ->
  map (fun w => if has_id i w then f w else w) l = l.
Proof.
  induction l as [|a l IH]; simpl; intros H; [reflexivity|].
  destruct (has_id i a) eqn:E.
  - apply has_id_true in E. tauto.
  - f_equal. apply IH. tauto.
Qed.

Lemma map_absent_else (i : string) (f g : WState -> WState)
      (l : list WState) :
  ~ In i (map id l) ->
  map (fun w => if has_id i w then f w else g w) l = map g l.
Proof.
  induction l as [|a l IH]; simpl; intros H; [reflexivity|].
  destruct (has_id i a) eqn:E.
  - apply has_id_true in E. tauto.
  - f_equal. apply IH. tauto.
Qed.

Lemma filter_absent (i : string) (l : list WState) :
  ~ In i (map id l) ->
  filter (fun w => negb (has_id i w)) l = l.
Proof.
  induction l as [|a l IH]; simpl; intros H; [reflexivity|].
  destruct (has_id i a) eqn:E; simpl.
  - apply has_id_true in E. tauto.
  - f_equal. apply IH. tauto.
Qed.

(** Maps that keep every id keep the list of ids. *)
Lemma map_keeps_ids (f : WState -> WState) (l : list WState) :
  (forall w, id (f w) = id w) -> map id (map f l) = map id l.
Proof.
  intros H. rewrite map_map. apply map_ext. exact H.
Qed.

Lemma filter_ids_NoDup (p : WState -> bool) (l : list WState) :
  NoDup (map id l) -> NoDup (map id (filter p l)).
Proof.
  induction l as [|a l IH]; simpl; intros H; [constructor|].
  inversion H as [|? ? Hn Hd]; subst.
  destruct (p a); simpl; [|auto].
  constructor; [|auto].
  intros Hin. apply Hn. apply in_map_iff in Hin.
  destruct Hin as [w [Hw Hin]]. apply filter_In in Hin.
  apply in_map_iff. exists w. tauto.
Qed.

(** With distinct ids at most one record answers to an id. *)
Lemma at_most_one_has_id (i : string) (l : list WState) :
  NoDup (map id l) -> (List.length (filter (has_id i) l) <= 1)%nat.
Proof.
  induction l as [|a l IH]; simpl; intros H; [lia|].
  inversion H as [|? ? Hn Hd]; subst.
  destruct (has_id i a) eqn:E; [|auto].
  apply has_id_true in E. subst i.
  assert (Hnone : filter (has_id (id a)) l = []).
  { clear -Hn. induction l as [|b l IH]; simpl; [reflexivity|].
    simpl in Hn. destruct (has_id (id a) b) eqn:E.
    - apply has_id_true in E. tauto.
    - apply IH. tauto. }
  rewrite Hnone. simpl. lia.
Qed.

(** The focused records after a [map] that focuses exactly the records
    with id [i]. *)
Lemma focused_after_retarget (i : string) (f g : WState -> WState)
      (l : list WState) :
  (forall w, isFocused (f w) = true) ->
  (forall w, isFocused (g w) = false) ->
  List.length
    (filter isFocused (map (fun w => if has_id i w then f w else g w) l))
  = List.length (filter (has_id i) l).
Proof.
  intros Hf Hg. induction l as [|a l IH]; simpl; [reflexivity|].
  destruct (has_id i a); simpl.
  - rewrite Hf. simpl. now rewrite IH.
  - rewrite Hg. exact IH.
Qed.

Lemma focused_after_clear (l : list WState) :
  filter isFocused (map (with_isFocused false) l) = [].
Proof.
  induction l as [|a l IH]; simpl; [reflexivity|exact IH].
Qed.

(** A [map] that never turns focus on does not add focused records. *)
Lemma focused_not_added (f : WState -> WState) (l : list WState) :
  (forall w, isFocused (f w) = true -> isFocused w = true) ->
  (List.length (filter isFocused (map f l))
   <= List.length (filter isFocused l))%nat.
Proof.
  intros H. induction l as [|a l IH]; simpl; [lia|].
  destruct (isFocused (f a)) eqn:E.
  - rewrite (H a E). simpl. lia.
  - destruct (isFocused a); simpl; lia.
Qed.

Lemma filter_length_le {A : Type} (p q : A -> bool) (l : list A) :
  (List.length (filter p (filter q l)) <= List.length (filter p l))%nat.
Proof.
  induction l as [|a l IH]; simpl; [lia|].
  destruct (q a); simpl; destruct (p a); simpl; lia.
Qed.

(** *** Ids stay pairwise distinct *)

Lemma open_ids (d : WindowDescriptor ReactNode number) (s : MState) :
  ids (openWindow d s) =
  (if in_dec string_dec (d_id d) (ids s) then ids s
   else ids s ++ [d_id d])%list.
Proof.
  unfold ids, openWindow. simpl.
  destruct (in_dec string_dec (d_id d) (map id (windows s))) as [Hin|Hout].
  - destruct (find_present _ _ Hin) as [w Hw]. rewrite Hw.
    destruct (isMinimized w); apply map_keeps_ids; intros w0;
      destruct (has_id (d_id d) w0); reflexivity.
  - rewrite (find_absent _ _ Hout). rewrite map_app. simpl.
    f_equal. apply map_keeps_ids. reflexivity.
Qed.

Lemma step_ids_NoDup (o : MOp) (s : MState) :
  NoDup (ids s) -> NoDup (ids (step o s)).
Proof.
  intros H. destruct o; simpl.
  - rewrite open_ids. destruct (in_dec _ _ _) as [Hin|Hout]; [assumption|].
    apply NoDup_app; [assumption|repeat constructor; simpl; tauto|].
    intros a Ha [Hb|[]]. subst. contradiction.
  - apply filter_ids_NoDup. exact H.
  - unfold ids, minimizeWindow; simpl. rewrite map_keeps_ids; [exact H|].
    intros w; destruct (has_id i w); reflexivity.
  - unfold ids, maximizeWindow; simpl. rewrite map_keeps_ids; [exact H|].
    intros w; destruct (has_id i w); reflexivity.
  - unfold ids, restoreWindow; simpl. rewrite map_keeps_ids; [exact H|].
    intros w; destruct (has_id i w); reflexivity.
  - unfold ids, focusWindow; simpl. rewrite map_keeps_ids; [exact H|].
    intros w; destruct (has_id i w); reflexivity.
  - unfold ids, updateWindowPosition; simpl.
    rewrite map_keeps_ids; [exact H|].
    intros w; destruct (has_id i w); reflexivity.
  - unfold ids, updateWindowSize; simpl. rewrite map_keeps_ids; [exact H|].
    intros w; destruct (has_id i w); reflexivity.
Qed.

Lemma reachable_ids_NoDup (s : MState) : reachable s -> NoDup (ids s).
Proof.
  induction 1 as [|o s Hr IH]; [constructor|].
  now apply step_ids_NoDup.
Qed.

(** *** Stacking values never exceed the counter *)

Lemma z_bounded_retarget (i : string) (f g : WState -> WState)
      (l : list WState) (top : Z) :
  (forall w, zIndex (f w) = top + 1) ->
  (forall w, zIndex (g w) = zIndex w) ->
  Forall (fun w => zIndex w <= top) l ->
  Forall (fun w => zIndex w <= top + 1)
         (map (fun w => if has_id i w then f w else g w) l).
Proof.
  intros Hf Hg H. rewrite Forall_forall in *. intros w' Hin.
  apply in_map_iff in Hin. destruct Hin as [w [Hw Hin]]. subst w'.
  destruct (has_id i w).
  - rewrite Hf. lia.
  - rewrite Hg. specialize (H w Hin). simpl in H. lia.
Qed.

Lemma z_bounded_map (f : WState -> WState) (l : list WState) (top : Z) :
  (forall w, zIndex (f w) = zIndex w) ->
  Forall (fun w => zIndex w <= top) l ->
  Forall (fun w => zIndex w <= top) (map f l).
Proof.
  intros Hf H. rewrite Forall_forall in *. intros w' Hin.
  apply in_map_iff in Hin. destruct Hin as [w [Hw Hin]]. subst w'.
  rewrite Hf. exact (H w Hin).
Qed.

Lemma step_z_bounded (o : MOp) (s : MState) :
  z_bounded s -> z_bounded (step o s).
Proof.
  unfold z_bounded. intros H. destruct o; simpl.
  - destruct (find (has_id (d_id window)) (windows s)) as [e|].
    + destruct (isMinimized e);
        apply z_bounded_retarget; auto.
    + apply Forall_app. split.
      * apply z_bounded_map; [reflexivity|].
        eapply Forall_impl; [|exact H]. simpl. intros; lia.
      * repeat constructor. simpl. lia.
  - rewrite Forall_forall in *. intros w Hin. apply filter_In in Hin.
    apply H. tauto.
  - apply z_bounded_map; [|exact H].
    intros w; destruct (has_id i w); reflexivity.
  - apply z_bounded_map; [|exact H].
    intros w; destruct (has_id i w); reflexivity.
  - apply z_bounded_retarget; auto.
  - apply z_bounded_retarget; auto.
  - apply z_bounded_map; [|exact H].
    intros w; destruct (has_id i w); reflexivity.
  - apply z_bounded_map; [|exact H].
    intros w; destruct (has_id i w); reflexivity.
Qed.

Lemma reachable_z_bounded (s : MState) : reachable s -> z_bounded s.
Proof.
  induction 1 as [|o s Hr IH]; [constructor|].
  now apply step_z_bounded.
Qed.

(** *** Focus count *)

Lemma step_focused_le (o : MOp) (s : MState) :
  NoDup (ids s) -> (focused_count s <= 1)%nat ->
  (focused_count (step o s) <= 1)%nat.
Proof.
  unfold focused_count, ids. intros Hd H. destruct o; simpl.
  - destruct (find (has_id (d_id window)) (windows s)) as [e|].
    + destruct (isMinimized e);
        (rewrite focused_after_retarget; [|reflexivity|reflexivity]);
        now apply at_most_one_has_id.
    + rewrite filter_app, focused_after_clear. simpl. lia.
  - etransitivity; [apply filter_length_le|exact H].
  - etransitivity; [apply focused_not_added|exact H].
    intros w; destruct (has_id i w); simpl; congruence.
  - etransitivity; [apply focused_not_added|exact H].
    intros w; destruct (has_id i w); simpl; congruence.
  - rewrite focused_after_retarget; [|reflexivity|reflexivity].
    now apply at_most_one_has_id.
  - rewrite focused_after_retarget; [|reflexivity|reflexivity].
    now apply at_most_one_has_id.
  - etransitivity; [apply focused_not_added|exact H].
    intros w; destruct (has_id i w); simpl; congruence.
  - etransitivity; [apply focused_not_added|exact H].
    intros w; destruct (has_id i w); simpl; congruence.
Qed.

Lemma reachable_focused_le (s : MState) :
  reachable s -> (focused_count s <= 1)%nat.
Proof.
  intros Hr. induction Hr as [|o s Hr IH]; [unfold focused_count; simpl; lia|].
  apply step_focused_le; [now apply reachable_ids_NoDup|exact IH].
Qed.

Lemma open_fresh_focused (d : WindowDescriptor ReactNode number)
      (s : MState) :
  ~ In (d_id d) (ids s) -> focused_count (openWindow d s) = 1%nat.
Proof.
  intros Hout. unfold focused_count, openWindow. simpl.
  rewrite (find_absent _ _ Hout), filter_app, focused_after_clear.
  reflexivity.
Qed.

Lemma opens_distinct_focused (ds : list (WindowDescriptor ReactNode number)) :
  forall s : MState,
    NoDup (map d_id ds) ->
    (forall d, In d ds -> ~ In (d_id d) (ids s)) ->
    Forall (fun st => focused_count st = 1%nat) (trace (map Open ds) s).
Proof.
  induction ds as [|d ds IH]; intros s Hd Hfresh; simpl; [constructor|].
  inversion Hd as [|? ? Hn Hd']; subst.
  assert (Hout : ~ In (d_id d) (ids s)) by (apply Hfresh; now left).
  constructor; [now apply open_fresh_focused|].
  apply IH; [assumption|].
  intros d' Hin'. rewrite open_ids.
  destruct (in_dec string_dec (d_id d) (ids s)) as [Hin|_]; [contradiction|].
  rewrite in_app_iff. simpl. intros [Hold|[Heq|[]]].
  - apply (Hfresh d'); [now right|assumption].
  - apply Hn. rewrite Heq. now apply in_map.
Qed.

(** C1. Opening windows with pairwise distinct ids from the empty window
    set leaves exactly one focused record after each call; and in no state
    the manager can reach, by whatever operations, are two records focused
    at once. *)
Theorem open_distinct_exactly_one_focused
        (ds : list (WindowDescriptor ReactNode number)) :
  NoDup (map d_id ds) ->
  Forall (fun st => focused_count st = 1%nat)
         (trace (map Open ds) initial)
  /\ (forall s : MState, reachable s -> (focused_count s <= 1)%nat).
Proof.
  intros Hd. split.
  - apply opens_distinct_focused; [exact Hd|]. intros d _ [].
  - apply reachable_focused_le.
Qed.

(** C6. In every reachable state, focusing an id that is present gives its
    record a stacking value strictly above that of every other record. *)
Theorem focus_strictly_topmost (s : MState) (i : string) :
  reachable s -> In i (ids s) ->
  (exists w, In w (windows (focusWindow i s)) /\ id w = i) /\
  (forall w w', In w (windows (focusWindow i s)) ->
                In w' (windows (focusWindow i s)) ->
                id w = i -> id w' <> i -> zIndex w' < zIndex w).
Proof.
  intros Hr Hin. pose proof (reachable_z_bounded s Hr) as Hz.
  unfold z_bounded in Hz. rewrite Forall_forall in Hz. split.
  - unfold ids in Hin. apply in_map_iff in Hin.
    destruct Hin as [w0 [Hid Hin]].
    exists (with_zIndex (topZIndex s + 1) (with_isFocused true w0)).
    split; [|exact Hid]. simpl. apply in_map_iff. exists w0.
    split; [|exact Hin]. apply has_id_true in Hid. now rewrite Hid.
  - simpl. intros w w' Hw Hw' Hid Hid'.
    apply in_map_iff in Hw. destruct Hw as [v [Hv Hvin]].
    apply in_map_iff in Hw'. destruct Hw' as [v' [Hv' Hvin']].
    subst w w'.
    destruct (has_id i v) eqn:E; [|apply has_id_false in E; contradiction].
    destruct (has_id i v') eqn:E'.
    { apply has_id_true in E'. simpl in Hid'. contradiction. }
    simpl. specialize (Hz v' Hvin'). simpl in Hz. lia.
Qed.

(** *** Operations on an id that is absent *)

Lemma clear_same_but_focus (l : list WState) :
  Forall2 same_but_focus l (map (with_isFocused false) l).
Proof.
  induction l as [|a l IH]; simpl; constructor; [|exact IH].
  unfold same_but_focus. simpl. repeat split; reflexivity.
Qed.

(** C3, amended. On an id that is absent, close, minimize, maximize, move
    and resize leave the window set as it is; focus and restore keep the
    length and every field of every record except [isFocused], which they
    set to false on every record. *)
Theorem absent_id_effect (s : MState) (i : string) (nx ny nw nh : number) :
  ~ In i (ids s) ->
  windows (closeWindow i s) = windows s /\
  windows (minimizeWindow i s) = windows s /\
  windows (maximizeWindow i s) = windows s /\
  windows (updateWindowPosition i nx ny s) = windows s /\
  windows (updateWindowSize i nw nh s) = windows s /\
  windows (focusWindow i s) = map (with_isFocused false) (windows s) /\
  windows (restoreWindow i s) = map (with_isFocused false) (windows s) /\
  Forall2 same_but_focus (windows s) (windows (focusWindow i s)) /\
  Forall2 same_but_focus (windows s) (windows (restoreWindow i s)).
Proof.
  intros Hout. unfold ids in Hout. simpl.
  rewrite (filter_absent _ _ Hout).
  rewrite !(map_absent _ _ _ Hout).
  rewrite !(map_absent_else _ _ _ _ Hout).
  repeat split; apply clear_same_but_focus.
Qed.

(** *** Minimized and focused *)

Lemma same_id_same_record (l : list WState) (w e : WState) :
  NoDup (map id l) -> In w l -> In e l -> id w = id e -> w = e.
Proof.
  induction l as [|a l IH]; simpl; intros Hd Hw He Hid; [contradiction|].
  inversion Hd as [|? ? Hn Hd']; subst.
  destruct Hw as [Hw|Hw], He as [He|He]; subst.
  - reflexivity.
  - exfalso. apply Hn. rewrite Hid. now apply in_map.
  - exfalso. apply Hn. rewrite <- Hid. now apply in_map.
  - now apply IH.
Qed.

Lemma step_minimized_unfocused (o : MOp) (s : MState) :
  NoDup (ids s) -> respects_minimized o s ->
  minimized_unfocused s -> minimized_unfocused (step o s).
Proof.
  unfold minimized_unfocused, ids. intros Hd Hg H. destruct o; simpl in *.
  - destruct (find (has_id (d_id window)) (windows s)) as [e|] eqn:Hfind.
    + apply find_found in Hfind. destruct Hfind as [He Heid].
      destruct (isMinimized e) eqn:Hmin; intros w' Hin Hm;
        apply in_map_iff in Hin; destruct Hin as [w [Hw Hin]]; subst w';
        destruct (has_id (d_id window) w) eqn:E; simpl in *;
        try reflexivity; try discriminate.
      apply has_id_true in E.
      assert (w = e) by (apply (same_id_same_record (windows s));
                         auto; congruence).
      congruence.
    + intros w' Hin Hm. apply in_app_iff in Hin. destruct Hin as [Hin|Hin].
      * apply in_map_iff in Hin. destruct Hin as [w [Hw Hin]]; subst w'.
        reflexivity.
      * destruct Hin as [Hin|[]]. subst w'. simpl in Hm.
        rewrite (Hg eq_refl) in Hm. discriminate.
  - intros w Hin Hm. apply filter_In in Hin. apply H; tauto.
  - intros w' Hin Hm. apply in_map_iff in Hin.
    destruct Hin as [w [Hw Hin]]; subst w'.
    destruct (has_id i w); simpl in *; [reflexivity|auto].
  - intros w' Hin Hm. apply in_map_iff in Hin.
    destruct Hin as [w [Hw Hin]]; subst w'.
    destruct (has_id i w); simpl in *; auto.
  - intros w' Hin Hm. apply in_map_iff in Hin.
    destruct Hin as [w [Hw Hin]]; subst w'.
    destruct (has_id i w); simpl in *; [discriminate|reflexivity].
  - intros w' Hin Hm. apply in_map_iff in Hin.
    destruct Hin as [w [Hw Hin]]; subst w'.
    destruct (has_id i w) eqn:E; simpl in *; [|reflexivity].
    rewrite (Hg w Hin E) in Hm. discriminate.
  - intros w' Hin Hm. apply in_map_iff in Hin.
    destruct Hin as [w [Hw Hin]]; subst w'.
    destruct (has_id i w); simpl in *; auto.
  - intros w' Hin Hm. apply in_map_iff in Hin.
    destruct Hin as [w [Hw Hin]]; subst w'.
    destruct (has_id i w); simpl in *; auto.
Qed.

Lemma guarded_is_reachable (s : MState) :
  reachable_guarded s -> reachable s.
Proof.
  induction 1; [apply reachable_initial|now apply reachable_step].
Qed.

(** C4, amended. As long as new windows are opened with
    [isMinimized = false] and focus is requested only for records that are
    not minimized, no record is minimized and focused at once.  In any
    state, after [minimize(id)] the record of [id] is minimized and not
    focused, and [focus(id)] changes no record's minimized flag and leaves
    the record of [id] focused: a minimized target ends up minimized and
    focused. *)
Theorem minimized_focused_exclusive_when_guarded :
  (forall s : MState, reachable_guarded s -> minimized_unfocused s) /\
  (forall (s : MState) i w,
     In w (windows (minimizeWindow i s)) -> id w = i ->
     isMinimized w = true /\ isFocused w = false) /\
  (forall (s : MState) i,
     map isMinimized (windows (focusWindow i s))
     = map isMinimized (windows s)) /\
  (forall (s : MState) i w,
     In w (windows (focusWindow i s)) -> id w = i -> isFocused w = true) /\
  (forall (s : MState) i w,
     In w (windows s) -> id w = i -> isMinimized w = true ->
     exists w', In w' (windows (focusWindow i s)) /\ id w' = i /\
                isMinimized w' = true /\ isFocused w' = true).
Proof.
  split; [|split; [|split; [|split]]].
  - intros s Hg. induction Hg as [|o s Hg IH Hres].
    + intros w [].
    + apply step_minimized_unfocused; auto.
      apply reachable_ids_NoDup. now apply guarded_is_reachable.
  - intros s i w H Hid. simpl in H. apply in_map_iff in H.
    destruct H as [v [Hv Hin]]. subst w.
    destruct (has_id i v) eqn:E; [split; reflexivity|].
    apply has_id_false in E. contradiction.
  - intros s i. simpl. rewrite map_map. apply map_ext.
    intros w. destruct (has_id i w); reflexivity.
  - intros s i w H Hid. simpl in H. apply in_map_iff in H.
    destruct H as [v [Hv Hin]]. subst w.
    destruct (has_id i v) eqn:E; [reflexivity|].
    apply has_id_false in E. contradiction.
  - intros s i w Hin Hid Hmin.
    exists (with_zIndex (topZIndex s + 1) (with_isFocused true w)).
    repeat split; try assumption. simpl. apply in_map_iff. exists w.
    split; [|exact Hin]. apply has_id_true in Hid. now rewrite Hid.
Qed.

(** *** Re-opening an existing id *)

(** C8. Opening a descriptor whose id belongs to a minimized record clears
    that record's minimized flag, focuses it, gives it the next stacking
    value and takes focus from every other record; no record is added. *)
Theorem open_existing_minimized
        (d : WindowDescriptor ReactNode number) (s : MState) (e : WState) :
  find (has_id (d_id d)) (windows s) = Some e ->
  isMinimized e = true ->
  List.length (windows (openWindow d s)) = List.length (windows s) /\
  ids (openWindow d s) = ids s /\
  topZIndex (openWindow d s) = topZIndex s + 1 /\
  (exists w, In w (windows (openWindow d s)) /\ id w = d_id d) /\
  (forall w, In w (windows (openWindow d s)) ->
     (id w = d_id d ->
        isMinimized w = false /\ isFocused w = true /\
        zIndex w = topZIndex s + 1) /\
     (id w <> d_id d -> isFocused w = false)).
Proof.
  intros Hfind Hmin. unfold ids, openWindow. simpl. rewrite Hfind, Hmin.
  repeat split.
  - apply length_map.
  - apply map_keeps_ids. intros w; destruct (has_id _ w); reflexivity.
  - apply find_found in Hfind. destruct Hfind as [Hin Hid].
    exists (with_zIndex (topZIndex s + 1)
              (with_isFocused true (with_isMinimized false e))).
    split; [|exact Hid]. apply in_map_iff. exists e.
    apply has_id_true in Hid. now rewrite Hid.
  - apply in_map_iff in H. destruct H as [v [Hv Hin]]. subst w.
    destruct (has_id (d_id d) v) eqn:E; [reflexivity|].
    apply has_id_false in E. contradiction.
  - apply in_map_iff in H. destruct H as [v [Hv Hin]]. subst w.
    destruct (has_id (d_id d) v) eqn:E; [reflexivity|].
    apply has_id_false in E. contradiction.
  - apply in_map_iff in H. destruct H as [v [Hv Hin]]. subst w.
    destruct (has_id (d_id d) v) eqn:E; [reflexivity|].
    apply has_id_false in E. contradiction.
  - intros Hne. apply in_map_iff in H. destruct H as [v [Hv Hin]]. subst w.
    destruct (has_id (d_id d) v) eqn:E; [|reflexivity].
    apply has_id_true in E. contradiction.
Qed.

Lemma retarget_same_but_focus_z (i : string) (z : Z) (l : list WState) :
  Forall2 same_but_focus_z l
    (map (fun w => if has_id i w
                   then with_zIndex z (with_isFocused true w)
                   else with_isFocused false w) l).
Proof.
  induction l as [|a l IH]; simpl; constructor; [|exact IH].
  unfold same_but_focus_z.
  destruct (has_id i a); simpl; repeat split; reflexivity.
Qed.

(** C10. Opening a descriptor whose id belongs to a record that is not
    minimized changes nothing but [isFocused] and [zIndex]: every other
    field of every record is kept, and whatever else the descriptor
    carries (geometry, title, icon, flags, content) plays no part in the
    result. *)
Theorem open_existing_keeps_record
        (d : WindowDescriptor ReactNode number) (s : MState) (e : WState) :
  find (has_id (d_id d)) (windows s) = Some e ->
  isMinimized e = false ->
  Forall2 same_but_focus_z (windows s) (windows (openWindow d s)) /\
  (forall d' : WindowDescriptor ReactNode number,
     d_id d' = d_id d -> openWindow d' s = openWindow d s).
Proof.
  intros Hfind Hmin. split.
  - unfold openWindow. simpl. rewrite Hfind, Hmin.
    apply retarget_same_but_focus_z.
  - intros d' Hid. unfold openWindow. rewrite Hid. rewrite Hfind, Hmin.
    reflexivity.
Qed.

End WindowManagerFacts.

(* ===================================================================== *)
(** ** Folder view: properties *)
(* ===================================================================== *)

Section FolderViewFacts.

Import FolderView.

Variable Callback : Type.

Local Abbreviation Item := (FolderItem Callback).

(** The first click on a fresh view arms one timer and nothing else. *)
Lemma first_click (t0 : Z) (a : Item) (f0 : bool) :
  click (mkClick t0 a f0) initial =
  mkState None (Some 1%nat) 1 (Some (id a)) [mkTimer 1 (t0 + 250) a] 2 [].
Proof. reflexivity. Qed.

Lemma beats_timer_not_due (t0 t1 : Z) (f1 : bool) (h : nat) (a it : Item) :
  beats_timer t0 (mkClick t1 it f1) ->
  is_due f1 t1 (mkTimer h (t0 + 250) a) = false.
Proof.
  unfold beats_timer, is_due. simpl. intros [H|[H Hf]].
  - destruct f1; [apply Z.leb_gt|apply Z.ltb_ge]; lia.
  - subst f1. apply Z.ltb_ge. lia.
Qed.

Lemma after_timer_due (t0 t1 : Z) (f1 : bool) (h : nat) (a it : Item) :
  after_timer t0 (mkClick t1 it f1) ->
  is_due f1 t1 (mkTimer h (t0 + 250) a) = true.
Proof.
  unfold after_timer, is_due. simpl. intros [H|[H Hf]].
  - destruct f1; [apply Z.leb_le|apply Z.ltb_lt]; lia.
  - subst f1. apply Z.leb_le. lia.
Qed.

(** Two clicks on one item, the second handled before the first timer's
    callback. *)
Lemma two_clicks_fast (t0 t1 : Z) (f0 f1 : bool) (a : Item) :
  beats_timer t0 (mkClick t1 a f1) ->
  log (play [mkClick t0 a f0; mkClick t1 a f1])
  = ([DoubleClick (id a)] ++ call_onOpen a)%list.
Proof.
  intros H. unfold play. simpl fold_left. rewrite first_click.
  unfold click, fire. simpl.
  rewrite (beats_timer_not_due t0 t1 f1 1 a a H).
  simpl. unfold handleItemClick. simpl. rewrite String.eqb_refl. simpl.
  reflexivity.
Qed.

(** Two clicks on one item, the second handled after the first timer's
    callback. *)
Lemma two_clicks_slow (t0 t1 : Z) (f0 f1 : bool) (a : Item) :
  after_timer t0 (mkClick t1 a f1) ->
  log (play [mkClick t0 a f0; mkClick t1 a f1])
  = [SingleClick (id a); SingleClick (id a)].
Proof.
  intros H. unfold play. simpl fold_left. rewrite first_click.
  unfold click, fire. simpl.
  rewrite (after_timer_due t0 t1 f1 1 a a H).
  simpl. unfold handleItemClick. simpl. rewrite String.eqb_refl. simpl.
  reflexivity.
Qed.

(** A click on [a], then one on another item, whenever it comes: the log
    holds single clicks only. *)
Lemma two_items (t0 t1 : Z) (f0 f1 : bool) (a b : Item) :
  id a <> id b ->
  log (play [mkClick t0 a f0; mkClick t1 b f1])
  = (if is_due f1 t1 (mkTimer 1 (t0 + 250) a)
     then [SingleClick (id a); SingleClick (id b)]
     else [SingleClick (id b)]).
Proof.
  intros Hne. apply String.eqb_neq in Hne.
  unfold play. simpl fold_left. rewrite first_click.
  unfold click, fire. simpl.
  destruct (is_due f1 t1 (mkTimer 1 (t0 + 250) a)); simpl;
    unfold handleItemClick; simpl; rewrite Hne; reflexivity.
Qed.

(** C7, amended. Two clicks on an item call its [onOpen] exactly once when
    the second is handled before the timer of the first has run: less than
    250 time-units later, or exactly 250 later on a host that puts the
    click first.  When the second is handled after that timer (more than
    250 later, or exactly 250 later on a host that puts the timer first)
    the two clicks give two single-click selections and no [onOpen].  A
    click on one item followed by a click on another calls [onOpen] of
    neither. *)
Theorem double_click_classification
        (a b : Item) (cb : Callback) (t0 t1 : Z) (f0 f1 : bool) :
  onOpen a = Some cb -> id a <> id b ->
  (t1 < t0 + 250 \/ (t1 = t0 + 250 /\ f1 = false) ->
   log (play [mkClick t0 a f0; mkClick t1 a f1])
   = [DoubleClick (id a); Invoke (id a) cb] /\
   onOpen_calls (id a) (log (play [mkClick t0 a f0; mkClick t1 a f1]))
   = 1%nat) /\
  (t0 + 250 < t1 \/ (t1 = t0 + 250 /\ f1 = true) ->
   log (play [mkClick t0 a f0; mkClick t1 a f1])
   = [SingleClick (id a); SingleClick (id a)] /\
   forall i,
     onOpen_calls i (log (play [mkClick t0 a f0; mkClick t1 a f1]))
     = 0%nat) /\
  (forall i,
     onOpen_calls i (log (play [mkClick t0 a f0; mkClick t1 b f1]))
     = 0%nat).
Proof.
  intros Hcb Hne. split; [|split].
  - intros H. rewrite (two_clicks_fast t0 t1 f0 f1 a H).
    unfold call_onOpen. rewrite Hcb. unfold onOpen_calls. simpl.
    rewrite String.eqb_refl. split; reflexivity.
  - intros H. rewrite (two_clicks_slow t0 t1 f0 f1 a H).
    split; reflexivity.
  - intros i. rewrite (two_items t0 t1 f0 f1 a b Hne).
    destruct (is_due f1 t1 (mkTimer 1 (t0 + 250) a)); reflexivity.
Qed.

End FolderViewFacts.

(* ===================================================================== *)
(** ** Chat relay endpoint: properties *)
(* ===================================================================== *)

Section ChatRouteFacts.

Import ChatRoute.

Lemma pop_snoc {A : Type} (l : list A) (x : A) : pop (l ++ [x]) = Some x.
Proof.
  unfold pop. rewrite length_app. simpl.
  replace (List.length l + 1 - 1)%nat with (List.length l) by lia.
  rewrite nth_error_app2 by lia. now rewrite Nat.sub_diag.
Qed.

(** [filter(...).pop()] picks the last element that passes the test. *)
Lemma pop_filter_split {A : Type} (p : A -> bool) (l : list A) (x : A) :
  pop (filter p l) = Some x ->
  exists pre post,
    l = (pre ++ x :: post)%list /\ p x = true /\
    (forall y, In y post -> p y = false).
Proof.
  induction l as [|a l IH] using rev_ind; simpl; intros H.
  - discriminate.
  - rewrite filter_app in H. simpl in H. destruct (p a) eqn:E.
    + rewrite pop_snoc in H. inversion H; subst.
      exists l, []. repeat split; [assumption|]. intros y [].
    + rewrite app_nil_r in H. destruct (IH H) as [pre [post [Hl [Hp Hpost]]]].
      exists pre, (post ++ [a])%list. repeat split.
      * rewrite Hl, <- app_assoc. reflexivity.
      * assumption.
      * intros y Hin. apply in_app_iff in Hin.
        destruct Hin as [Hin|[Hin|[]]]; [auto|now subst].
Qed.

Lemma pop_filter_none {A : Type} (p : A -> bool) (l : list A) :
  pop (filter p l) = None <-> (forall y, In y l -> p y = false).
Proof.
  split.
  - intros H y Hin. destruct (p y) eqn:E; [|reflexivity].
    assert (Hf : In y (filter p l)) by (apply filter_In; tauto).
    destruct (filter p l) as [|b r] using rev_ind; [contradiction|].
    rewrite pop_snoc in H. discriminate.
  - intros H. replace (filter p l) with (@nil A); [reflexivity|].
    symmetry. induction l as [|a l IH]; simpl; [reflexivity|].
    rewrite (H a (or_introl eq_refl)). apply IH.
    intros y Hy. apply H. now right.
Qed.

(** *** Reading the array *)

Lemma filter_users_no_null (ms : list Json) :
  (forall m, In m ms -> m <> JNull) ->
  filter_users ms = Some (filter is_user ms).
Proof.
  induction ms as [|a ms IH]; intros H; [reflexivity|].
  assert (Ha : a <> JNull) by (apply H; now left).
  assert (IH' : filter_users ms = Some (filter is_user ms))
    by (apply IH; intros m Hm; apply H; now right).
  destruct a; try congruence; simpl; rewrite IH'; reflexivity.
Qed.

Lemma filter_users_null (ms : list Json) :
  In JNull ms -> filter_users ms = None.
Proof.
  induction ms as [|a ms IH]; intros H; [contradiction|].
  destruct H as [H|H].
  - subst a. reflexivity.
  - destruct a; simpl; try reflexivity; now rewrite (IH H).
Qed.

Lemma filter_users_app (ms : list Json) (a : Json) :
  a <> JNull -> is_user a = false ->
  filter_users (ms ++ [a]) = filter_users ms.
Proof.
  intros Ha Hu. induction ms as [|b ms IH].
  - destruct a; try congruence; simpl; simpl in Hu; rewrite ?Hu;
      reflexivity.
  - destruct b; simpl; try reflexivity; now rewrite IH.
Qed.

Lemma pop_map {A B : Type} (f : A -> B) (l : list A) :
  pop (map f l) = option_map f (pop l).
Proof. unfold pop. now rewrite length_map, nth_error_map. Qed.

Lemma pop_last_match {A : Type} (p : A -> bool) (pre post : list A) (u : A) :
  p u = true -> (forall m, In m post -> p m = false) ->
  pop (filter p (pre ++ u :: post)) = Some u.
Proof.
  intros Hu Hpost. rewrite filter_app. simpl. rewrite Hu.
  replace (filter p post) with (@nil A); [apply pop_snoc|].
  symmetry. induction post as [|a post IH]; simpl; [reflexivity|].
  rewrite (Hpost a (or_introl eq_refl)). apply IH.
  intros m Hm. apply Hpost. now right.
Qed.

Lemma all_texts_some {A : Type} (f : A -> string) (l : list A) :
  all_texts (map (fun x => Some (f x)) l) = Some (map f l).
Proof.
  induction l as [|a l IH]; simpl; [reflexivity|]. now rewrite IH.
Qed.

Lemma removelast_of_map {A B : Type} (f : A -> B) (l : list A) :
  removelast (map f l) = map f (removelast l).
Proof.
  induction l as [|a l IH]; [reflexivity|].
  destruct l as [|b l]; [reflexivity|].
  simpl in *. now rewrite IH.
Qed.

(** *** Messages of the asserted type *)

(** One line of the transcript, spelled out. *)
Local Abbreviation transcript_line :=
  (fun m : MessageInput =>
     (if String.eqb (role m) "user" then "User" else "Assistant")
     ++ ": " ++ content m).

Lemma is_user_of_message (m : MessageInput) :
  is_user (of_message m) = String.eqb (role m) "user".
Proof. reflexivity. Qed.

Lemma of_message_not_null (ms : list MessageInput) :
  forall j, In j (map of_message ms) -> j <> JNull.
Proof.
  intros j Hin. apply in_map_iff in Hin. destruct Hin as [m [Hm _]].
  subst j. discriminate.
Qed.

Lemma filter_of_messages (ms : list MessageInput) :
  filter is_user (map of_message ms)
  = map of_message (filter (fun m => String.eqb (role m) "user") ms).
Proof.
  induction ms as [|m ms IH]; [reflexivity|].
  simpl map. simpl filter. rewrite is_user_of_message.
  destruct (String.eqb (role m) "user"); simpl; now rewrite IH.
Qed.

Lemma render_of_message (m : MessageInput) :
  render (of_message m) = Some (transcript_line m).
Proof.
  unfold render. rewrite is_user_of_message. reflexivity.
Qed.

Lemma conversationContext_of_messages (ms : list MessageInput) :
  conversationContext (map of_message ms)
  = Some (String.concat (nl ++ nl) (map transcript_line (removelast ms))).
Proof.
  unfold conversationContext. rewrite removelast_of_map, map_map.
  erewrite map_ext; [|intros m; apply render_of_message].
  now rewrite all_texts_some.
Qed.

Lemma append_nonempty (a b : string) : a <> "" -> (a ++ b)%string <> "".
Proof. destruct a; [congruence|discriminate]. Qed.

Lemma concat_nonempty (sep : string) (l : list string) :
  l <> [] -> (forall x, In x l -> x <> "") -> String.concat sep l <> "".
Proof.
  destruct l as [|x l]; [congruence|]. intros _ H.
  assert (Hx : x <> "") by (apply H; now left).
  destruct l; simpl; [exact Hx|now apply append_nonempty].
Qed.

(** The transcript is empty exactly when there is nothing before the last
    message. *)
Lemma transcript_empty (ms : list MessageInput) :
  String.eqb (String.concat (nl ++ nl) (map transcript_line (removelast ms)))
             ""
  = (List.length ms <=? 1)%nat.
Proof.
  destruct ms as [|a [|b l]]; try reflexivity.
  transitivity false; [|reflexivity].
  apply String.eqb_neq. apply concat_nonempty.
  - simpl. discriminate.
  - intros x Hin. apply in_map_iff in Hin. destruct Hin as [m [Hm _]].
    subst x. destruct (String.eqb (role m) "user"); discriminate.
Qed.

(** C5, amended. A body other than [null] that has no [messages] field, or
    a [messages] value that is not an array, is answered with status 400
    and the error "Messages array is required"; an array with no [null]
    element and no message of role "user" is answered with status 400 and
    "No user message found".  In both cases the answer is a plain JSON
    response, the same whatever the upstream runtime would do, and no
    upstream connection is opened.  A [null] body and an array with a
    [null] element are answered with status 500. *)
Theorem validation_errors (query : QueryCall -> Upstream) :
  POST query (Body (JObject []))
  = mkOutcome (JsonError 400 "Messages array is required") [] /\
  (forall body messages,
     member body "messages" = Some messages -> isArray messages = false ->
     POST query (Body body)
     = mkOutcome (JsonError 400 "Messages array is required") []) /\
  (forall body msgs,
     member body "messages" = Some (Some (JArray msgs)) ->
     (forall m, In m msgs -> m <> JNull /\ is_user m = false) ->
     POST query (Body body)
     = mkOutcome (JsonError 400 "No user message found") []) /\
  POST query (Body JNull) = server_error /\
  (forall body msgs,
     member body "messages" = Some (Some (JArray msgs)) ->
     In JNull msgs ->
     POST query (Body body) = server_error).
Proof.
  split; [reflexivity|]. split; [|split; [|split; [reflexivity|]]].
  - intros body messages Hm Hv. unfold POST. rewrite Hm, Hv.
    now rewrite orb_true_r.
  - intros body msgs Hm Hnone. unfold POST. rewrite Hm. simpl.
    rewrite filter_users_no_null by (intros m Hin; apply (Hnone m Hin)).
    assert (Hpop : pop (filter is_user msgs) = None).
    { apply pop_filter_none. intros y Hy. apply (Hnone y Hy). }
    now rewrite Hpop.
  - intros body msgs Hm Hnull. unfold POST. rewrite Hm. simpl.
    now rewrite (filter_users_null msgs Hnull).
Qed.

(** *** The prompt *)

(** C9, amended. For a request whose messages are role/content objects
    with string fields, at least one of them of role "user", the upstream
    runtime is called once, with at most 10 turns and with a prompt made of
    the fixed preamble, the transcript of all messages but the last (when
    there are any), and the content of the final user message.  A request
    whose array has a [null] element, or whose final user message has no
    content or a [null] content, is answered with status 500 and no
    upstream call, even though it has a message of role "user". *)
Theorem prompt_construction (query : QueryCall -> Upstream) :
  (forall ms : list MessageInput,
     (exists m, In m ms /\ role m = "user") ->
     exists pre lastUser post call,
       ms = (pre ++ lastUser :: post)%list /\
       role lastUser = "user" /\
       (forall m, In m post -> role m <> "user") /\
       POST query (Body (request_body (map of_message ms)))
       = mkOutcome (EventStream (start (query call))) [call] /\
       maxTurns call = 10 /\
       prompt call =
       if (List.length ms <=? 1)%nat then
         SYSTEM_PROMPT ++ nl ++ nl ++ "User: " ++ content lastUser
       else
         SYSTEM_PROMPT ++ nl ++ nl ++ "Previous conversation:" ++ nl ++
         String.concat (nl ++ nl)
           (map (fun m =>
                   (if String.eqb (role m) "user"
                    then "User" else "Assistant")
                   ++ ": " ++ content m)
                (removelast ms)) ++
         nl ++ nl ++ "User: " ++ content lastUser) /\
  (forall msgs : list Json,
     In JNull msgs ->
     POST query (Body (request_body msgs)) = server_error) /\
  (forall (pre post : list Json) (lastUser : Json),
     (forall m, In m (pre ++ lastUser :: post)%list -> m <> JNull) ->
     is_user lastUser = true ->
     (forall m, In m post -> is_user m = false) ->
     member lastUser "content" = Some None \/
     member lastUser "content" = Some (Some JNull) ->
     POST query (Body (request_body (pre ++ lastUser :: post)))
     = server_error).
Proof.
  split; [|split].
  - intros ms [m [Hin Hrole]].
    set (p := fun m : MessageInput => String.eqb (role m) "user").
    destruct (pop (filter p ms)) as [lastUser|] eqn:Hpop.
    + destruct (pop_filter_split _ _ _ Hpop) as [pre [post [Hl [Hp Hpost]]]].
      exists pre, lastUser, post.
      eexists. repeat split.
      * exact Hl.
      * now apply String.eqb_eq.
      * intros y Hy. apply String.eqb_neq. now apply Hpost.
      * unfold POST. simpl.
        rewrite (filter_users_no_null _ (of_message_not_null ms)).
        rewrite filter_of_messages, pop_map. fold p. rewrite Hpop. simpl.
        rewrite conversationContext_of_messages. reflexivity.
      * reflexivity.
      * simpl. unfold fullPrompt. rewrite transcript_empty.
        destruct (List.length ms <=? 1)%nat; reflexivity.
    + exfalso. rewrite pop_filter_none in Hpop.
      specialize (Hpop m Hin). unfold p in Hpop.
      apply String.eqb_neq in Hpop. contradiction.
  - intros msgs Hnull. unfold POST. simpl.
    now rewrite (filter_users_null msgs Hnull).
  - intros pre post u Hnn Hu Hpost Hc. unfold POST. simpl.
    rewrite (filter_users_no_null _ Hnn).
    rewrite (pop_last_match is_user pre post u Hu Hpost).
    unfold content_has_length. destruct Hc as [Hc|Hc]; rewrite Hc;
      reflexivity.
Qed.

(** *** The end of the stream *)

Lemma on_message_no_sentinel (m : SDKMessage) : ~ In DataDone (on_message m).
Proof.
  unfold on_message, on_stream_event, on_assistant, on_tool_progress,
         on_success, on_failure.
  rewrite !in_app_iff. intros H.
  repeat match type of H with
         | _ \/ _ => destruct H as [H|H]
         end.
  - destruct (String.eqb (type m) "stream_event"); [|contradiction].
    destruct (event m) as [ev|]; [|contradiction].
    destruct (String.eqb (event_type ev) _); [|contradiction].
    destruct (delta ev) as [d|]; [|contradiction].
    destruct (String.eqb (delta_type d) _); [|contradiction].
    destruct H as [H|[]]. discriminate.
  - destruct (String.eqb (type m) "assistant"); [|contradiction].
    destruct (message_content m) as [blocks|]; [|contradiction].
    apply in_flat_map in H. destruct H as [b [_ H]].
    destruct (String.eqb (block_type b) _); [|contradiction].
    destruct H as [H|[]]. discriminate.
  - destruct (String.eqb (type m) "tool_progress"); [|contradiction].
    destruct H as [H|[]]. discriminate.
  - destruct (_ && _); [|contradiction].
    destruct H as [H|[]]. discriminate.
  - destruct (_ && _); [|contradiction].
    destruct H as [H|[]]. discriminate.
Qed.

Lemma relayed_no_sentinel (ms : list SDKMessage) :
  ~ In DataDone (flat_map on_message ms).
Proof.
  intros H. apply in_flat_map in H. destruct H as [m [_ H]].
  exact (on_message_no_sentinel m H).
Qed.

Lemma on_message_success (m : SDKMessage) :
  type m = "result" -> subtype m = "success" -> on_message m = [Data done].
Proof.
  intros Ht Hs.
  unfold on_message, on_stream_event, on_assistant, on_tool_progress,
         on_success, on_failure.
  rewrite Ht, Hs. reflexivity.
Qed.

(** A request is answered with a stream only after it passed validation,
    and then exactly one upstream call is made. *)
Lemma stream_opened (query : QueryCall -> Upstream) (request : RequestJson)
      (chunks : list Chunk) :
  response (POST query request) = EventStream chunks ->
  exists call,
    queries (POST query request) = [call] /\ chunks = start (query call).
Proof.
  unfold POST, server_error. destruct request as [|body]; simpl;
    [discriminate|].
  destruct (member body "messages") as [messages|]; simpl; [|discriminate].
  destruct (negb (truthy messages) || negb (isArray messages)); simpl;
    [discriminate|].
  destruct (filter_users (elements_of messages)) as [users|]; simpl;
    [|discriminate].
  destruct (pop users) as [u|]; simpl; [|discriminate].
  destruct (content_has_length u); simpl; [|discriminate].
  destruct (conversationContext (elements_of messages)) as [context|];
    simpl; [|discriminate].
  destruct (content_text u) as [text|]; simpl; [|discriminate].
  intros H. inversion H. eauto.
Qed.

(** C2, amended. Whenever a stream is opened: if the upstream sequence is
    read to its end (whether it reported success or not), the stream ends
    with the literal sentinel; if an exception interrupts the reading, the
    stream ends with the "Stream error occurred" event and carries no
    sentinel at all; and when the upstream sequence ends with a successful
    result, the last two chunks are the done event and the sentinel. *)
Theorem stream_ending (query : QueryCall -> Upstream) (request : RequestJson)
        (chunks : list Chunk) :
  response (POST query request) = EventStream chunks ->
  exists call,
    queries (POST query request) = [call] /\
    (throws (query call) = false -> pop chunks = Some DataDone) /\
    (throws (query call) = true ->
       pop chunks = Some (Data (error "Stream error occurred")) /\
       ~ In DataDone chunks) /\
    (throws (query call) = false ->
       forall earlier m,
         yielded (query call) = (earlier ++ [m])%list ->
         type m = "result" -> subtype m = "success" ->
         exists front, chunks = (front ++ [Data done; DataDone])%list).
Proof.
  intros H. destruct (stream_opened _ _ _ H) as [call [Hq Hc]].
  exists call. split; [exact Hq|]. subst chunks. unfold start.
  repeat split.
  - intros Ht. rewrite Ht. apply pop_snoc.
  - rewrite H0. apply pop_snoc.
  - rewrite H0. rewrite in_app_iff. intros [Hin|[Hin|[]]].
    + exact (relayed_no_sentinel _ Hin).
    + discriminate.
  - intros Ht earlier m Hy Htype Hsub. rewrite Ht, Hy.
    rewrite flat_map_app. simpl. rewrite (on_message_success m Htype Hsub).
    exists (flat_map on_message earlier). simpl.
    rewrite <- app_assoc. reflexivity.
Qed.

End ChatRouteFacts.

(* ===================================================================== *)
(** ** The statements at concrete inputs *)
(* ===================================================================== *)

Lemma run_reachable {ReactNode number : Type}
      (ops : list (WindowManager.Op ReactNode number))
      (s : WindowManager.State ReactNode number) :
  WindowManager.reachable s ->
  WindowManager.reachable (WindowManager.run ops s).
Proof.
  revert s. induction ops as [|o ops IH]; intros s H; simpl; [exact H|].
  apply IH. now apply WindowManager.reachable_step.
Qed.

Lemma open_distinct_exactly_one_focused_witness :
  NoDup (map WindowManager.d_id [Samples.chat_window; Samples.notes_window])
  /\ Forall (fun st => WindowManager.focused_count st = 1%nat)
            (WindowManager.trace
               (map WindowManager.Open
                    [Samples.chat_window; Samples.notes_window])
               WindowManager.initial).
Proof.
  assert (H : NoDup (map WindowManager.d_id
                         [Samples.chat_window; Samples.notes_window])).
  { simpl. repeat constructor; simpl; intuition discriminate. }
  split; [exact H|].
  exact (proj1 (open_distinct_exactly_one_focused string Z _ H)).
Defined.

Lemma focus_strictly_topmost_witness :
  In "chat"
     (WindowManager.ids
        (WindowManager.openWindow Samples.notes_window Samples.chat_open)) /\
  ((exists w,
      In w (WindowManager.windows
              (WindowManager.focusWindow "chat"
                 (WindowManager.openWindow Samples.notes_window
                    Samples.chat_open))) /\
      WindowManager.id w = "chat") /\
   (forall w w',
      In w (WindowManager.windows
              (WindowManager.focusWindow "chat"
                 (WindowManager.openWindow Samples.notes_window
                    Samples.chat_open))) ->
      In w' (WindowManager.windows
               (WindowManager.focusWindow "chat"
                  (WindowManager.openWindow Samples.notes_window
                     Samples.chat_open))) ->
      WindowManager.id w = "chat" -> WindowManager.id w' <> "chat" ->
      WindowManager.zIndex w' < WindowManager.zIndex w)).
Proof.
  assert (Hin : In "chat"
                   (WindowManager.ids
                      (WindowManager.openWindow Samples.notes_window
                         Samples.chat_open))).
  { simpl. left. reflexivity. }
  split; [exact Hin|].
  refine (focus_strictly_topmost string Z
            (WindowManager.openWindow Samples.notes_window
               Samples.chat_open) "chat" _ Hin).
  apply (WindowManager.reachable_step (WindowManager.Open _)).
  apply (WindowManager.reachable_step (WindowManager.Open _)).
  apply WindowManager.reachable_initial.
Defined.

(** C3 as stated fails: with the chat window open and focused, focusing an
    id that is absent takes the focus away from it. *)
Lemma focus_absent_id_changes_windows :
  ~ In "notes" (WindowManager.ids Samples.chat_open) /\
  map WindowManager.isFocused
      (WindowManager.windows Samples.chat_open) = [true] /\
  map WindowManager.isFocused
      (WindowManager.windows
         (WindowManager.focusWindow "notes" Samples.chat_open)) = [false] /\
  WindowManager.windows (WindowManager.focusWindow "notes" Samples.chat_open)
  <> WindowManager.windows Samples.chat_open.
Proof.
  repeat split.
  - simpl. intros [H|[]]. discriminate.
  - simpl. discriminate.
Qed.

Lemma absent_id_effect_witness :
  ~ In "notes" (WindowManager.ids Samples.chat_open) /\
  WindowManager.windows (WindowManager.closeWindow "notes" Samples.chat_open)
  = WindowManager.windows Samples.chat_open /\
  WindowManager.windows (WindowManager.focusWindow "notes" Samples.chat_open)
  = map (WindowManager.with_isFocused false)
        (WindowManager.windows Samples.chat_open).
Proof.
  assert (Hout : ~ In "notes" (WindowManager.ids Samples.chat_open)).
  { simpl. intros [H|[]]. discriminate. }
  split; [exact Hout|].
  destruct (absent_id_effect string Z Samples.chat_open "notes" 0 0 0 0 Hout)
    as [Hclose [_ [_ [_ [_ [Hfocus _]]]]]].
  split; [exact Hclose|exact Hfocus].
Defined.

(** C4 as stated fails: open, minimize, focus leaves the chat window both
    minimized and focused. *)
Lemma focus_on_minimized_breaks_exclusion :
  WindowManager.reachable Samples.chat_minimized_then_focused /\
  exists w,
    In w (WindowManager.windows Samples.chat_minimized_then_focused) /\
    WindowManager.isMinimized w = true /\ WindowManager.isFocused w = true.
Proof.
  split.
  - apply run_reachable. apply WindowManager.reachable_initial.
  - eexists. split; [left; reflexivity|]. split; reflexivity.
Qed.

Lemma minimized_focused_exclusive_when_guarded_witness :
  WindowManager.minimized_unfocused Samples.chat_minimized.
Proof.
  refine (proj1 (minimized_focused_exclusive_when_guarded string Z)
            Samples.chat_minimized _).
  apply (WindowManager.guarded_step (WindowManager.Minimize "chat"));
    [|exact I].
  apply (WindowManager.guarded_step (WindowManager.Open Samples.chat_window));
    [|intros _; reflexivity].
  apply WindowManager.guarded_initial.
Defined.

(** C7 as stated fails: two clicks 250 time-units apart, on a host that
    runs the due timer before the second click, are two single clicks. *)
Lemma double_click_missed_at_the_due_instant :
  250 - 0 <= 250 /\
  FolderView.log
    (FolderView.play
       [FolderView.mkClick 0 Samples.agents_item false;
        FolderView.mkClick 250 Samples.agents_item true])
  = [FolderView.SingleClick "agents"; FolderView.SingleClick "agents"] /\
  FolderView.onOpen_calls "agents"
    (FolderView.log
       (FolderView.play
          [FolderView.mkClick 0 Samples.agents_item false;
           FolderView.mkClick 250 Samples.agents_item true])) = 0%nat.
Proof.
  split; [lia|]. split; reflexivity.
Qed.

Lemma double_click_classification_witness :
  (FolderView.log
     (FolderView.play
        [FolderView.mkClick 0 Samples.agents_item false;
         FolderView.mkClick 100 Samples.agents_item true])
   = [FolderView.DoubleClick "agents";
      FolderView.Invoke "agents" "open agents"] /\
   FolderView.onOpen_calls "agents"
     (FolderView.log
        (FolderView.play
           [FolderView.mkClick 0 Samples.agents_item false;
            FolderView.mkClick 100 Samples.agents_item true])) = 1%nat) /\
  (forall i,
     FolderView.onOpen_calls i
       (FolderView.log
          (FolderView.play
             [FolderView.mkClick 0 Samples.agents_item false;
              FolderView.mkClick 100 Samples.readme_item true])) = 0%nat).
Proof.
  destruct (double_click_classification string
              Samples.agents_item Samples.readme_item
              "open agents" 0 100 false true eq_refl)
    as [Hfast [_ Hother]].
  - simpl. discriminate.
  - split; [|exact Hother]. apply Hfast. left. lia.
Defined.

Lemma open_existing_minimized_witness :
  List.length
    (WindowManager.windows
       (WindowManager.openWindow Samples.chat_window_again
          Samples.chat_minimized)) = 1%nat.
Proof.
  refine (proj1 (open_existing_minimized string Z Samples.chat_window_again
                   Samples.chat_minimized _ _ _)).
  - reflexivity.
  - reflexivity.
Defined.

Lemma open_existing_keeps_record_witness :
  Forall2 WindowManager.same_but_focus_z
    (WindowManager.windows Samples.chat_open)
    (WindowManager.windows
       (WindowManager.openWindow Samples.chat_window_again
          Samples.chat_open)).
Proof.
  refine (proj1 (open_existing_keeps_record string Z
                   Samples.chat_window_again Samples.chat_open _ _ _)).
  - reflexivity.
  - reflexivity.
Defined.

(** C5 as stated fails: an array whose only element is [null] holds no
    message of role "user", and a [null] body has no [messages] field; both
    are answered with status 500. *)
Lemma null_gets_server_error :
  (forall m, In m [ChatRoute.JNull] -> ChatRoute.is_user m = false) /\
  ChatRoute.response
    (ChatRoute.POST Samples.succeeding_runtime
       Scenarios.null_element_request)
  = ChatRoute.JsonError 500
      "Failed to process chat request. Check server logs for details." /\
  ChatRoute.response
    (ChatRoute.POST Samples.succeeding_runtime
       (ChatRoute.Body ChatRoute.JNull))
  = ChatRoute.JsonError 500
      "Failed to process chat request. Check server logs for details.".
Proof.
  split; [|split; reflexivity].
  intros m [H|[]]. subst m. reflexivity.
Qed.

Lemma validation_errors_witness :
  ChatRoute.POST Samples.succeeding_runtime
    (ChatRoute.Body
       (ChatRoute.request_body
          (map ChatRoute.of_message Samples.assistant_only)))
  = ChatRoute.mkOutcome (ChatRoute.JsonError 400 "No user message found") [].
Proof.
  refine (proj1 (proj2 (proj2 (validation_errors Samples.succeeding_runtime)))
            (ChatRoute.request_body
               (map ChatRoute.of_message Samples.assistant_only))
            (map ChatRoute.of_message Samples.assistant_only) eq_refl _).
  simpl. intros m [H|[]]. subst m. split; [discriminate|reflexivity].
Defined.

(** C9 as stated fails: a request whose only message has role "user" and
    no content is valid by the claim's test, yet no prompt is sent: the
    answer is the 500 error and no upstream call is made. *)
Lemma contentless_user_message_sends_no_prompt :
  (exists m,
     In m [Scenarios.contentless_message] /\
     ChatRoute.member m "role"
     = Some (Some (ChatRoute.JString "user"))) /\
  ChatRoute.POST Samples.succeeding_runtime Scenarios.contentless_request
  = ChatRoute.mkOutcome
      (ChatRoute.JsonError 500
         "Failed to process chat request. Check server logs for details.")
      [].
Proof.
  split; [|reflexivity].
  eexists. split; [left; reflexivity|reflexivity].
Qed.

Lemma prompt_construction_witness :
  exists call,
    ChatRoute.POST Samples.succeeding_runtime
      (ChatRoute.Body
         (ChatRoute.request_body
            (map ChatRoute.of_message Scenarios.conversation)))
    = ChatRoute.mkOutcome
        (ChatRoute.EventStream
           (ChatRoute.start (Samples.succeeding_runtime call))) [call] /\
    ChatRoute.maxTurns call = 10 /\
    ChatRoute.prompt call =
    (ChatRoute.SYSTEM_PROMPT ++ ChatRoute.nl ++ ChatRoute.nl ++
     "Previous conversation:" ++ ChatRoute.nl ++
     "User: hello" ++ ChatRoute.nl ++ ChatRoute.nl ++
     "Assistant: hi" ++ ChatRoute.nl ++ ChatRoute.nl ++
     "User: what is the weather")%string.
Proof.
  destruct (proj1 (prompt_construction Samples.succeeding_runtime)
              Scenarios.conversation)
    as [pre [lastUser [post [call [Hsplit [Hrole [Hpost [Hpost' [Ht Hp]]]]]]]]].
  - eexists. split; [left; reflexivity|reflexivity].
  - exists call. split; [exact Hpost'|]. split; [exact Ht|].
    rewrite Hp. simpl.
    assert (Hlast : lastUser
                    = ChatRoute.mkMessageInput "user" "what is the weather").
    { destruct pre as [|p0 [|p1 [|p2 pre]]]; simpl in Hsplit;
        inversion Hsplit; subst; simpl in *.
      - exfalso. apply (Hpost (ChatRoute.mkMessageInput "user"
                                 "what is the weather")); auto.
      - discriminate.
      - reflexivity.
      - destruct pre; discriminate. }
    rewrite Hlast. reflexivity.
Defined.

(** C2 as stated fails: when the iterator throws, the stream that was
    opened ends with the error event and not with the sentinel. *)
Lemma exception_stream_lacks_sentinel :
  ChatRoute.response
    (ChatRoute.POST Samples.failing_runtime Samples.hello_request)
  = ChatRoute.EventStream
      [ChatRoute.Data (ChatRoute.error "Stream error occurred")] /\
  ChatRoute.pop [ChatRoute.Data (ChatRoute.error "Stream error occurred")]
  <> Some ChatRoute.DataDone.
Proof.
  split; [reflexivity|]. unfold ChatRoute.pop. simpl. discriminate.
Qed.

Lemma stream_ending_witness :
  exists call,
    ChatRoute.queries
      (ChatRoute.POST Samples.succeeding_runtime Samples.hello_request)
    = [call] /\
    (ChatRoute.throws (Samples.succeeding_runtime call) = false ->
       ChatRoute.pop [ChatRoute.Data ChatRoute.done; ChatRoute.DataDone]
       = Some ChatRoute.DataDone) /\
    (ChatRoute.throws (Samples.succeeding_runtime call) = true ->
       ChatRoute.pop [ChatRoute.Data ChatRoute.done; ChatRoute.DataDone]
       = Some (ChatRoute.Data (ChatRoute.error "Stream error occurred")) /\
       ~ In ChatRoute.DataDone
            [ChatRoute.Data ChatRoute.done; ChatRoute.DataDone]) /\
    (ChatRoute.throws (Samples.succeeding_runtime call) = false ->
       forall earlier m,
         ChatRoute.yielded (Samples.succeeding_runtime call)
         = (earlier ++ [m])%list ->
         ChatRoute.type m = "result" -> ChatRoute.subtype m = "success" ->
         exists front,
           [ChatRoute.Data ChatRoute.done; ChatRoute.DataDone]
           = (front ++ [ChatRoute.Data ChatRoute.done;
                        ChatRoute.DataDone])%list).
Proof.
  refine (stream_ending Samples.succeeding_runtime Samples.hello_request
            [ChatRoute.Data ChatRoute.done; ChatRoute.DataDone] _).
  reflexivity.
Defined.

(* ===================================================================== *)
(** ** Window manager: further properties *)
(* ===================================================================== *)

Section MoreWindowFacts.

Import WindowManager WindowViews.

Variables (ReactNode number : Type).

Local Abbreviation WState := (WindowState ReactNode number).
Local Abbreviation MState := (State ReactNode number).
Local Abbreviation MOp := (Op ReactNode number).
Local Abbreviation Descriptor := (WindowDescriptor ReactNode number).

Lemma has_id_spec (i : string) (w : WState) :
  has_id i w = true <-> id w = i.
Proof. apply has_id_true. Qed.

Lemma has_id_spec_false (i : string) (w : WState) :
  has_id i w = false <-> id w <> i.
Proof. apply has_id_false. Qed.

Lemma one_record_per_id (i : string) (l : list WState) :
  NoDup (map id l) -> In i (map id l) ->
  List.length (filter (has_id i) l) = 1%nat.
Proof.
  intros Hd Hin.
  pose proof (at_most_one_has_id ReactNode number i l Hd) as Hle.
  destruct (filter (has_id i) l) as [|w r] eqn:E; [|simpl in *; lia].
  exfalso. apply in_map_iff in Hin. destruct Hin as [w [Hw Hin]].
  assert (In w (filter (has_id i) l)) as Hf.
  { apply filter_In. split; [assumption|]. now apply has_id_spec. }
  rewrite E in Hf. contradiction.
Qed.

Lemma short_list_one_element {A : Type} (l : list A) (a b : A) :
  (List.length l <= 1)%nat -> In a l -> In b l -> a = b.
Proof.
  destruct l as [|c [|d l]]; simpl; intros Hlen Ha Hb.
  - contradiction.
  - destruct Ha as [Ha|[]], Hb as [Hb|[]]. congruence.
  - lia.
Qed.

Lemma filter_split_length {A : Type} (p : A -> bool) (l : list A) :
  (List.length (filter p l) + List.length (filter (fun a => negb (p a)) l)
   = List.length l)%nat.
Proof.
  induction l as [|a l IH]; simpl; [reflexivity|].
  destruct (p a); simpl; lia.
Qed.

Lemma map_fixed {A : Type} (f : A -> A) (l : list A) :
  (forall a, In a l -> f a = a) -> map f l = l.
Proof.
  induction l as [|a l IH]; simpl; intros H; [reflexivity|].
  rewrite (H a (or_introl eq_refl)). f_equal. apply IH.
  intros b Hb. apply H. now right.
Qed.

(** X1. Ids are pairwise distinct in every reachable state, and
    [openWindow] adds a record exactly when the id is new. *)
Theorem window_ids_unique (s : MState) (d : Descriptor) :
  reachable s ->
  NoDup (ids s) /\
  (In (d_id d) (ids s) ->
     List.length (windows (openWindow d s)) = List.length (windows s)) /\
  (~ In (d_id d) (ids s) ->
     List.length (windows (openWindow d s)) = S (List.length (windows s))).
Proof.
  intros Hr. split; [now apply reachable_ids_NoDup|].
  assert (Hlen : List.length (windows (openWindow d s))
                 = List.length (ids (openWindow d s))).
  { unfold ids. now rewrite length_map. }
  rewrite Hlen, open_ids.
  destruct (in_dec string_dec (d_id d) (ids s)) as [Hin|Hout].
  - split; [|contradiction]. intros _. unfold ids. apply length_map.
  - split; [contradiction|]. intros _.
    rewrite length_app. unfold ids. rewrite length_map. simpl. lia.
Qed.

(** *** Stacking values *)

Lemma stacked_weaken (top top' : Z) (l : list WState) :
  top <= top' -> stacked top l -> stacked top' l.
Proof.
  intros Hle [Hd Hb]. split; [exact Hd|].
  eapply Forall_impl; [|exact Hb]. simpl. intros; lia.
Qed.

Lemma stacked_same_z (f : WState -> WState) (top : Z) (l : list WState) :
  (forall w, zIndex (f w) = zIndex w) -> stacked top l -> stacked top (map f l).
Proof.
  intros Hf [Hd Hb]. split.
  - rewrite map_map. erewrite map_ext; [exact Hd|]. exact Hf.
  - rewrite Forall_forall in *. intros w' Hin. apply in_map_iff in Hin.
    destruct Hin as [w [Hw Hin]]. subst w'. rewrite Hf. now apply Hb.
Qed.

Lemma stacked_filter (p : WState -> bool) (top : Z) (l : list WState) :
  stacked top l -> stacked top (filter p l).
Proof.
  intros [Hd Hb]. split.
  - clear Hb. induction l as [|a l IH]; simpl; [constructor|].
    inversion Hd as [|? ? Hn Hd']; subst.
    destruct (p a); simpl; [|auto]. constructor; [|auto].
    intros Hin. apply Hn. apply in_map_iff in Hin.
    destruct Hin as [w [Hw Hin]]. apply filter_In in Hin.
    apply in_map_iff. exists w. tauto.
  - rewrite Forall_forall in *. intros w Hin. apply filter_In in Hin.
    apply Hb. tauto.
Qed.

Lemma stacked_retarget (i : string) (f g : WState -> WState) (top : Z)
      (l : list WState) :
  100 <= top ->
  (forall w, zIndex (f w) = top + 1) ->
  (forall w, zIndex (g w) = zIndex w) ->
  NoDup (map id l) -> stacked top l ->
  stacked (top + 1) (map (fun w => if has_id i w then f w else g w) l).
Proof.
  intros Htop Hf Hg Hids [Hd Hb]. split.
  - induction l as [|a l IH]; simpl; [constructor|].
    inversion Hids as [|? ? Hn Hids']; subst.
    inversion Hd as [|? ? Hzn Hd']; subst.
    inversion Hb as [|? ? Hba Hb']; subst.
    constructor; [|now apply IH].
    intros Hin. apply in_map_iff in Hin. destruct Hin as [w' [Hz Hin]].
    apply in_map_iff in Hin. destruct Hin as [w [Hw Hin]]. subst w'.
    rewrite Forall_forall in Hb'. pose proof (Hb' w Hin) as Hbw.
    simpl in Hbw.
    destruct (has_id i a) eqn:Ea, (has_id i w) eqn:Ew.
    + apply has_id_spec in Ea. apply has_id_spec in Ew.
      apply Hn. rewrite Ea, <- Ew. now apply in_map.
    + rewrite Hf, Hg in Hz. lia.
    + rewrite Hf, Hg in Hz. lia.
    + rewrite !Hg in Hz. apply Hzn. rewrite <- Hz. now apply in_map.
  - rewrite Forall_forall in *. intros w' Hin. apply in_map_iff in Hin.
    destruct Hin as [w [Hw Hin]]. subst w'. specialize (Hb w Hin).
    simpl in Hb. destruct (has_id i w); [rewrite Hf|rewrite Hg]; lia.
Qed.

Lemma step_stacked (o : MOp) (s : MState) :
  NoDup (ids s) -> 100 <= topZIndex s ->
  stacked (topZIndex s) (windows s) ->
  100 <= topZIndex (step o s) /\
  stacked (topZIndex (step o s)) (windows (step o s)).
Proof.
  intros Hids Htop Hst. destruct o; simpl; (split; [lia|]).
  - destruct (find (has_id (d_id window)) (windows s)) as [e|].
    + destruct (isMinimized e); apply stacked_retarget; auto.
    + pose proof (stacked_same_z (with_isFocused false) _ _
                    (fun w => eq_refl) Hst) as [Hd Hb].
      split.
      * rewrite map_app. simpl. apply NoDup_app; [exact Hd| |].
        -- repeat constructor. simpl. tauto.
        -- intros z Hz [Hz'|[]]. subst z. apply in_map_iff in Hz.
           destruct Hz as [w [Hw Hin]]. rewrite Forall_forall in Hb.
           specialize (Hb w Hin). simpl in Hb. lia.
      * apply Forall_app. split.
        -- eapply Forall_impl; [|exact Hb]. simpl. intros; lia.
        -- repeat constructor; simpl; lia.
  - now apply stacked_filter.
  - apply stacked_same_z; [|exact Hst].
    intros w; destruct (has_id i w); reflexivity.
  - apply stacked_same_z; [|exact Hst].
    intros w; destruct (has_id i w); reflexivity.
  - apply stacked_retarget; auto.
  - apply stacked_retarget; auto.
  - apply stacked_same_z; [|exact Hst].
    intros w; destruct (has_id i w); reflexivity.
  - apply stacked_same_z; [|exact Hst].
    intros w; destruct (has_id i w); reflexivity.
Qed.

(** X2. In every reachable state no two records share a stacking value,
    and every stacking value lies above the initial counter value 100 and
    at most at the current counter. *)
Theorem stacking_values_distinct (s : MState) :
  reachable s ->
  NoDup (map zIndex (windows s)) /\
  Forall (fun w => 100 < zIndex w <= topZIndex s) (windows s).
Proof.
  intros Hr.
  assert (H : 100 <= topZIndex s /\ stacked (topZIndex s) (windows s)).
  { induction Hr as [|o s Hr IH].
    - simpl. split; [lia|]. split; constructor.
    - destruct IH as [Htop Hst]. apply step_stacked; auto.
      now apply reachable_ids_NoDup. }
  exact (proj2 H).
Qed.

(** X3. The counter starts at 100 and advances by exactly one for each
    open, restore or focus request, whether or not the id exists; the other
    operations leave it alone. *)
Theorem counter_counts_requests (ops : list MOp) :
  (forall s : MState,
     topZIndex (run ops s)
     = topZIndex s
       + Z.of_nat (List.length (filter takes_stacking_value ops))) /\
  topZIndex (run ops initial)
  = 100 + Z.of_nat (List.length (filter takes_stacking_value ops)).
Proof.
  assert (H : forall s : MState,
             topZIndex (run ops s)
             = topZIndex s
               + Z.of_nat (List.length (filter takes_stacking_value ops))).
  { induction ops as [|o ops IH]; intros s; [simpl; lia|].
    change (run (o :: ops) s) with (run ops (step o s)). rewrite IH.
    destruct o; simpl; lia. }
  split; [exact H|]. apply (H initial).
Qed.

(** X4. Closing an id that is present removes exactly its record: the
    window set shrinks by one, the id is gone, every other record is kept
    as it was, and the counter is untouched. *)
Theorem close_removes_record (s : MState) (i : string) :
  reachable s -> In i (ids s) ->
  S (List.length (windows (closeWindow i s))) = List.length (windows s) /\
  ~ In i (ids (closeWindow i s)) /\
  (forall w, In w (windows (closeWindow i s)) <->
             In w (windows s) /\ id w <> i) /\
  topZIndex (closeWindow i s) = topZIndex s.
Proof.
  intros Hr Hin. pose proof (reachable_ids_NoDup _ _ s Hr) as Hd.
  repeat split.
  - simpl. pose proof (filter_split_length (has_id i) (windows s)) as Hsplit.
    rewrite (one_record_per_id i (windows s) Hd Hin) in Hsplit. lia.
  - unfold ids. simpl. intros H. apply in_map_iff in H.
    destruct H as [w [Hw H]]. apply filter_In in H. destruct H as [_ H].
    apply has_id_spec in Hw. rewrite Hw in H. discriminate.
  - simpl in H. apply filter_In in H. tauto.
  - simpl in H. apply filter_In in H. destruct H as [_ H].
    apply negb_true_iff in H. now apply has_id_spec_false.
  - intros [Hw Hne]. simpl. apply filter_In. split; [exact Hw|].
    apply negb_true_iff. now apply has_id_spec_false.
Qed.

(** X5. Closing or minimizing the focused window leaves no window focused:
    focus is not handed to another record. *)
Theorem focus_not_handed_over (s : MState) (w : WState) :
  reachable s -> In w (windows s) -> isFocused w = true ->
  focused_count (closeWindow (id w) s) = 0%nat /\
  focused_count (minimizeWindow (id w) s) = 0%nat.
Proof.
  intros Hr Hin Hf. pose proof (reachable_focused_le _ _ s Hr) as Hle.
  unfold focused_count in *.
  assert (Hw : In w (filter isFocused (windows s)))
    by (apply filter_In; tauto).
  assert (Honly : forall v, In v (windows s) -> isFocused v = true -> v = w).
  { intros v Hv Hvf.
    apply (short_list_one_element (filter isFocused (windows s))); auto.
    apply filter_In; tauto. }
  split.
  - destruct (filter isFocused (windows (closeWindow (id w) s)))
      as [|v r] eqn:E; [reflexivity|].
    exfalso.
    assert (Hv : In v (filter isFocused (windows (closeWindow (id w) s))))
      by (rewrite E; now left).
    apply filter_In in Hv. destruct Hv as [Hv Hvf]. simpl in Hv.
    apply filter_In in Hv. destruct Hv as [Hv Hid].
    rewrite (Honly v Hv Hvf) in Hid.
    unfold has_id in Hid. rewrite String.eqb_refl in Hid. discriminate.
  - destruct (filter isFocused (windows (minimizeWindow (id w) s)))
      as [|v r] eqn:E; [reflexivity|].
    exfalso.
    assert (Hv : In v (filter isFocused (windows (minimizeWindow (id w) s))))
      by (rewrite E; now left).
    apply filter_In in Hv. destruct Hv as [Hv Hvf]. simpl in Hv.
    apply in_map_iff in Hv. destruct Hv as [u [Hu Hv]]. subst v.
    destruct (has_id (id w) u) eqn:Eu; [simpl in Hvf; discriminate|].
    rewrite (Honly u Hv Hvf) in Eu.
    unfold has_id in Eu. rewrite String.eqb_refl in Eu. discriminate.
Qed.

(** X6. [maximizeWindow] flips the maximized flag of the records with the
    given id and of no other, and touches no other field, geometry
    included; so maximizing twice gives back the state exactly.
    Minimizing twice is the same as minimizing once. *)
Theorem maximize_twice_minimize_twice (s : MState) (i : string) :
  Forall2 (fun w w' =>
             same_but_maximized w w' /\
             isMaximized w'
             = if String.eqb (id w) i
               then negb (isMaximized w) else isMaximized w)
          (windows s) (windows (maximizeWindow i s)) /\
  topZIndex (maximizeWindow i s) = topZIndex s /\
  maximizeWindow i (maximizeWindow i s) = s /\
  minimizeWindow i (minimizeWindow i s) = minimizeWindow i s.
Proof.
  destruct s as [l top]. unfold maximizeWindow, minimizeWindow. simpl.
  split; [|split; [reflexivity|split]].
  - induction l as [|a l IH]; simpl; constructor; [|exact IH].
    unfold same_but_maximized, has_id.
    destruct (String.eqb (id a) i); simpl; repeat split; reflexivity.
  - f_equal. rewrite map_map. apply map_fixed. intros w _.
    destruct (has_id i w) eqn:E.
    + unfold has_id in *. simpl. rewrite E.
      destruct w; unfold with_isMaximized; simpl.
      now rewrite negb_involutive.
    + now rewrite E.
  - f_equal. rewrite map_map. apply map_ext. intros w.
    destruct (has_id i w) eqn:E.
    + unfold has_id in *. simpl. now rewrite E.
    + now rewrite E.
Qed.

(** X7. Opening any descriptor in a reachable state leaves exactly one
    focused record, whether the id is new or not; so do focus and restore
    of an id that is present. *)
Theorem request_gives_single_focus (s : MState) (d : Descriptor)
        (i : string) :
  reachable s ->
  focused_count (openWindow d s) = 1%nat /\
  (In i (ids s) ->
     focused_count (focusWindow i s) = 1%nat /\
     focused_count (restoreWindow i s) = 1%nat).
Proof.
  intros Hr. pose proof (reachable_ids_NoDup _ _ s Hr) as Hd. split.
  - destruct (in_dec string_dec (d_id d) (ids s)) as [Hin|Hout].
    + unfold focused_count, openWindow. simpl.
      destruct (find_present _ _ _ _ Hin) as [e He]. rewrite He.
      destruct (isMinimized e);
        (rewrite focused_after_retarget; [|reflexivity|reflexivity]);
        now apply one_record_per_id.
    + now apply open_fresh_focused.
  - intros Hin. unfold focused_count. simpl. split;
      (rewrite focused_after_retarget; [|reflexivity|reflexivity]);
      now apply one_record_per_id.
Qed.

(** X8. Clicking the taskbar button of a window makes that window the one
    and only highlighted entry: it ends up focused, not minimized and on
    top, whether it was minimized or not. *)
Theorem taskbar_click_activates (s : MState) (win : WState) :
  reachable s -> In win (windows s) ->
  focused_count (button_click win s) = 1%nat /\
  (forall w, In w (windows (button_click win s)) ->
             (highlighted w = true <-> id w = id win)) /\
  (forall w, In w (windows (button_click win s)) -> id w = id win ->
             isMinimized w = false /\ zIndex w = topZIndex s + 1) /\
  topZIndex (button_click win s) = topZIndex s + 1.
Proof.
  intros Hr Hin. pose proof (reachable_ids_NoDup _ _ s Hr) as Hd.
  assert (Hpresent : In (id win) (ids s)) by (now apply in_map).
  assert (Hsame : forall v, In v (windows s) -> has_id (id win) v = true ->
                            v = win).
  { intros v Hv Hid. apply has_id_spec in Hid.
    now apply (same_id_same_record _ _ (windows s)). }
  unfold button_click, handleWindowClick, focused_count, highlighted.
  destruct (isMinimized win) eqn:Hmin; simpl; repeat split.
  - rewrite focused_after_retarget; [|reflexivity|reflexivity].
    now apply one_record_per_id.
  - apply in_map_iff in H. destruct H as [v [Hv Hvin]]. subst w.
    destruct (has_id (id win) v) eqn:E; simpl.
    + intros _. now apply has_id_spec.
    + discriminate.
  - apply in_map_iff in H. destruct H as [v [Hv Hvin]]. subst w.
    destruct (has_id (id win) v) eqn:E; simpl; [reflexivity|].
    intros Hid. apply has_id_spec_false in E. contradiction.
  - apply in_map_iff in H. destruct H as [v [Hv Hvin]]. subst w.
    destruct (has_id (id win) v) eqn:E; [reflexivity|].
    apply has_id_spec_false in E. simpl in H0. contradiction.
  - apply in_map_iff in H. destruct H as [v [Hv Hvin]]. subst w.
    destruct (has_id (id win) v) eqn:E; [reflexivity|].
    apply has_id_spec_false in E. simpl in H0. contradiction.
  - rewrite focused_after_retarget; [|reflexivity|reflexivity].
    now apply one_record_per_id.
  - apply in_map_iff in H. destruct H as [v [Hv Hvin]]. subst w.
    destruct (has_id (id win) v) eqn:E; simpl.
    + intros _. now apply has_id_spec.
    + discriminate.
  - apply in_map_iff in H. destruct H as [v [Hv Hvin]]. subst w.
    destruct (has_id (id win) v) eqn:E; simpl.
    + rewrite (Hsame v Hvin E), Hmin. reflexivity.
    + intros Hid. apply has_id_spec_false in E. contradiction.
  - apply in_map_iff in H. destruct H as [v [Hv Hvin]]. subst w.
    destruct (has_id (id win) v) eqn:E; simpl.
    + rewrite (Hsame v Hvin E). exact Hmin.
    + apply has_id_spec_false in E. simpl in H0. contradiction.
  - apply in_map_iff in H. destruct H as [v [Hv Hvin]]. subst w.
    destruct (has_id (id win) v) eqn:E; [reflexivity|].
    apply has_id_spec_false in E. simpl in H0. contradiction.
Qed.

(** X9. Move and resize touch nothing but the position, respectively the
    size; the target takes the values given, with no check against its
    minimum size; and a move and a resize can be done in either order. *)
Theorem move_resize_frame (s : MState) (i j : string)
        (nx ny nw nh : number) :
  Forall2 same_but_position (windows s)
          (windows (updateWindowPosition i nx ny s)) /\
  Forall2 same_but_size (windows s)
          (windows (updateWindowSize i nw nh s)) /\
  (forall w, In w (windows (updateWindowPosition i nx ny s)) -> id w = i ->
             x w = nx /\ y w = ny) /\
  (forall w, In w (windows (updateWindowSize i nw nh s)) -> id w = i ->
             width w = nw /\ height w = nh) /\
  updateWindowPosition i nx ny (updateWindowSize j nw nh s)
  = updateWindowSize j nw nh (updateWindowPosition i nx ny s).
Proof.
  destruct s as [l top].
  unfold updateWindowPosition, updateWindowSize. simpl. repeat split.
  - induction l as [|a l IH]; simpl; constructor; [|exact IH].
    unfold same_but_position.
    destruct (has_id i a); simpl; repeat split; reflexivity.
  - induction l as [|a l IH]; simpl; constructor; [|exact IH].
    unfold same_but_size.
    destruct (has_id i a); simpl; repeat split; reflexivity.
  - apply in_map_iff in H. destruct H as [v [Hv Hvin]]. subst w.
    destruct (has_id i v) eqn:E; [reflexivity|].
    apply has_id_spec_false in E. contradiction.
  - apply in_map_iff in H. destruct H as [v [Hv Hvin]]. subst w.
    destruct (has_id i v) eqn:E; [reflexivity|].
    apply has_id_spec_false in E. contradiction.
  - apply in_map_iff in H. destruct H as [v [Hv Hvin]]. subst w.
    destruct (has_id i v) eqn:E; [reflexivity|].
    apply has_id_spec_false in E. contradiction.
  - apply in_map_iff in H. destruct H as [v [Hv Hvin]]. subst w.
    destruct (has_id i v) eqn:E; [reflexivity|].
    apply has_id_spec_false in E. contradiction.
  - f_equal. rewrite !map_map. apply map_ext. intros w.
    unfold has_id.
    destruct (String.eqb (id w) i) eqn:Ei, (String.eqb (id w) j) eqn:Ej;
      simpl; rewrite ?Ei, ?Ej; reflexivity.
Qed.

(** X10. A window opened under a new id can be looked up by that id: the
    record found carries the descriptor's fields, focus and the next
    stacking value, and it is the last record of the set.  Closing it
    again gives back the earlier records, none of them focused. *)
Theorem open_then_find_then_close (s : MState) (d : Descriptor) :
  ~ In (d_id d) (ids s) ->
  find (has_id (d_id d)) (windows (openWindow d s))
  = Some (of_descriptor d (topZIndex s + 1)) /\
  windows (openWindow d s)
  = (map (with_isFocused false) (windows s)
     ++ [of_descriptor d (topZIndex s + 1)])%list /\
  windows (closeWindow (d_id d) (openWindow d s))
  = map (with_isFocused false) (windows s) /\
  focused_count (closeWindow (d_id d) (openWindow d s)) = 0%nat.
Proof.
  intros Hout.
  assert (Hopen : windows (openWindow d s)
                  = (map (with_isFocused false) (windows s)
                     ++ [of_descriptor d (topZIndex s + 1)])%list).
  { unfold openWindow. simpl. now rewrite (find_absent _ _ _ _ Hout). }
  assert (Hout' : ~ In (d_id d)
                      (map id (map (with_isFocused false) (windows s)))).
  { rewrite map_keeps_ids; [exact Hout|reflexivity]. }
  assert (Hclose : windows (closeWindow (d_id d) (openWindow d s))
                   = map (with_isFocused false) (windows s)).
  { change (windows (closeWindow (d_id d) (openWindow d s)))
      with (filter (fun w => negb (has_id (d_id d) w))
                   (windows (openWindow d s))).
    rewrite Hopen, filter_app.
    rewrite (filter_absent _ _ _ _ Hout'). simpl.
    unfold has_id at 1. simpl. rewrite String.eqb_refl. simpl.
    apply app_nil_r. }
  repeat split.
  - rewrite Hopen.
    assert (Hnone : find (has_id (d_id d))
                         (map (with_isFocused false) (windows s)) = None)
      by (now apply find_absent).
    revert Hnone. generalize (map (with_isFocused false) (windows s)).
    intros l. induction l as [|a l IH]; simpl.
    + intros _. unfold has_id. simpl. now rewrite String.eqb_refl.
    + destruct (has_id (d_id d) a); [discriminate|exact IH].
  - exact Hopen.
  - exact Hclose.
  - unfold focused_count. rewrite Hclose. now rewrite focused_after_clear.
Qed.

Lemma minimized_after_minimize (l : list WState) (w : WState) :
  NoDup (map id l) -> In w l -> isMinimized w = false ->
  List.length
    (filter isMinimized
       (map (fun v => if has_id (id w) v
                      then with_isFocused false (with_isMinimized true v)
                      else v) l))
  = S (List.length (filter isMinimized l)).
Proof.
  induction l as [|a l IH]; simpl; intros Hd Hin Hmin; [contradiction|].
  inversion Hd as [|? ? Hn Hd']; subst.
  destruct (has_id (id w) a) eqn:E.
  - apply has_id_spec in E.
    assert (a = w).
    { destruct Hin as [Hin|Hin]; [exact Hin|].
      exfalso. apply Hn. rewrite E. now apply in_map. }
    subst a. simpl. rewrite Hmin.
    rewrite (map_absent _ _ _ _ _ Hn). reflexivity.
  - destruct Hin as [Hin|Hin].
    + subst a. unfold has_id in E. rewrite String.eqb_refl in E.
      discriminate.
    + destruct (isMinimized a); simpl; rewrite (IH Hd' Hin Hmin);
        reflexivity.
Qed.

(** X11. The three window gauges always add up: open plus minimized is the
    total.  Minimizing a window that is not minimized moves one unit from
    the open gauge to the minimized gauge and keeps the total. *)
Theorem gauges_add_up (s : MState) (w : WState) :
  reachable s ->
  (count_open (window_counts s) + count_minimized (window_counts s)
   = count_total (window_counts s))%nat /\
  (In w (windows s) -> isMinimized w = false ->
   count_total (window_counts (minimizeWindow (id w) s))
   = count_total (window_counts s) /\
   count_minimized (window_counts (minimizeWindow (id w) s))
   = S (count_minimized (window_counts s)) /\
   S (count_open (window_counts (minimizeWindow (id w) s)))
   = count_open (window_counts s)).
Proof.
  intros Hr. pose proof (reachable_ids_NoDup _ _ s Hr) as Hd.
  assert (Hsum : forall st : MState,
             (count_open (window_counts st)
              + count_minimized (window_counts st)
              = count_total (window_counts st))%nat).
  { intros st. unfold window_counts. simpl.
    pose proof (filter_split_length isMinimized (windows st)). lia. }
  split; [apply Hsum|]. intros Hin Hmin.
  assert (Htotal : count_total (window_counts (minimizeWindow (id w) s))
                   = count_total (window_counts s)).
  { unfold window_counts. simpl. apply length_map. }
  assert (Hm : count_minimized (window_counts (minimizeWindow (id w) s))
               = S (count_minimized (window_counts s))).
  { unfold window_counts. simpl.
    now apply (minimized_after_minimize (windows s) w). }
  pose proof (Hsum s). pose proof (Hsum (minimizeWindow (id w) s)).
  repeat split; lia.
Qed.

End MoreWindowFacts.

(* ===================================================================== *)
(** ** Folder view: further properties *)
(* ===================================================================== *)

Section MoreFolderFacts.

Import FolderView FolderRuns.

Variable Callback : Type.

Local Abbreviation Item := (FolderItem Callback).
Local Abbreviation VState := (FolderView.State Callback).

Lemma fire_between (ready : Timer Callback -> bool) (st : VState) :
  between_clicks st -> between_clicks (fire ready st).
Proof.
  intros [[Hc Ht]|[Hc [t [Ht [Hr Hl]]]]]; unfold fire; rewrite Ht; simpl.
  - left. split; [exact Hc|reflexivity].
  - destruct (ready t); simpl.
    + left. unfold on_timeout. simpl. rewrite Hc. simpl.
      split; reflexivity.
    + right. split; [exact Hc|]. exists t. simpl. auto.
Qed.

Lemma handle_between (now : Z) (it : Item) (st : VState) :
  between_clicks st -> between_clicks (handleItemClick now it st).
Proof.
  intros [[Hc Ht]|[Hc [t [Ht [Hr Hl]]]]]; unfold handleItemClick.
  - rewrite Hc. unfold clear_ref. rewrite Ht.
    assert (Hcount : (if differs (lastClickedIdRef st) (id it)
                      then 0%nat else 0%nat) = 0%nat)
      by (destruct (differs _ _); reflexivity).
    rewrite Hcount. simpl.
    right. split; [reflexivity|]. eexists. simpl. split; [|split].
    + destruct (differs _ _); [|reflexivity].
      destruct (clickTimeoutRef st); reflexivity.
    + reflexivity.
    + reflexivity.
  - rewrite Hc. unfold clear_ref. rewrite Ht, Hr.
    destruct (differs (lastClickedIdRef st) (id it)); simpl.
    + rewrite Nat.eqb_refl. simpl.
      right. split; [reflexivity|]. eexists. simpl.
      split; [reflexivity|]. split; reflexivity.
    + rewrite Nat.eqb_refl. simpl. left. split; reflexivity.
Qed.

Lemma click_between (c : Click Callback) (st : VState) :
  between_clicks st -> between_clicks (click c st).
Proof.
  intros H. unfold click. apply handle_between. now apply fire_between.
Qed.

Lemma after_clicks_between (clicks : list (Click Callback)) :
  forall st : VState,
    between_clicks st -> between_clicks (after_clicks clicks st).
Proof.
  induction clicks as [|c clicks IH]; intros st H; simpl; [exact H|].
  apply IH. now apply click_between.
Qed.

(** X12. Whatever the clicks, their timing and the order the host gives to
    a click and a timer due at the same instant, between two handlers the
    click counter is 0 or 1 and at most one timer is pending, the one the
    ref holds, armed for the item clicked last; the counter never reaches
    3.  Once the pending timer has run the view is idle again. *)
Theorem click_counter_bounded (clicks : list (Click Callback)) :
  between_clicks (after_clicks clicks initial) /\
  (clickCountRef (after_clicks clicks initial) <= 1)%nat /\
  (List.length (timers (after_clicks clicks initial)) <= 1)%nat /\
  idle (settle (after_clicks clicks initial)).
Proof.
  assert (H : between_clicks (after_clicks clicks (@initial Callback))).
  { apply after_clicks_between. left. split; reflexivity. }
  split; [exact H|].
  assert (Hs : between_clicks (settle (after_clicks clicks initial)))
    by (now apply fire_between).
  repeat split.
  - destruct H as [[Hc _]|[Hc _]]; rewrite Hc; lia.
  - destruct H as [[_ Ht]|[_ [t [Ht _]]]]; rewrite Ht; simpl; lia.
  - unfold settle, fire.
    destruct H as [[Hc Ht]|[Hc [t [Ht _]]]]; rewrite Ht; simpl.
    + exact Hc.
    + unfold on_timeout. simpl. rewrite Hc. reflexivity.
  - unfold settle, fire.
    destruct H as [[Hc Ht]|[Hc [t [Ht _]]]]; rewrite Ht; simpl.
    + reflexivity.
    + unfold on_timeout. simpl. rewrite Hc. reflexivity.
Qed.

(** The view right after a double click. *)
Lemma double_click_state (t0 t1 : Z) (f0 f1 : bool) (a : Item) :
  beats_timer t0 (mkClick t1 a f1) ->
  after_clicks [mkClick t0 a f0; mkClick t1 a f1] initial
  = mkState (Some (id a)) (Some 1%nat) 0 (Some (id a)) [] 2
            ([DoubleClick (id a)] ++ call_onOpen a).
Proof.
  intros H. unfold after_clicks. simpl fold_left.
  rewrite first_click. unfold click, fire. simpl.
  rewrite (beats_timer_not_due _ t0 t1 f1 1 a a H).
  simpl. unfold handleItemClick. simpl. rewrite String.eqb_refl. simpl.
  reflexivity.
Qed.

(** X13. One click selects the item once its timer has run and calls
    nothing; a double click on an item that has no [onOpen] (the second
    click handled before the timer of the first) selects it and calls
    nothing. *)
Theorem click_without_callback (t0 t1 : Z) (f0 f1 : bool) (a : Item) :
  (log (play [mkClick t0 a f0]) = [SingleClick (id a)] /\
   selectedId (play [mkClick t0 a f0]) = Some (id a)) /\
  (onOpen a = None -> beats_timer t0 (mkClick t1 a f1) ->
   log (play [mkClick t0 a f0; mkClick t1 a f1]) = [DoubleClick (id a)] /\
   selectedId (play [mkClick t0 a f0; mkClick t1 a f1]) = Some (id a)).
Proof.
  split.
  - unfold play. simpl fold_left. rewrite first_click. split; reflexivity.
  - intros Hnone H.
    change (play [mkClick t0 a f0; mkClick t1 a f1])
      with (settle (after_clicks [mkClick t0 a f0; mkClick t1 a f1]
                      initial)).
    rewrite (double_click_state t0 t1 f0 f1 a H).
    unfold call_onOpen. rewrite Hnone. split; reflexivity.
Qed.

(** X14. A third click after a double click starts afresh, whenever it
    comes: three clicks, the second handled before the timer of the first,
    open the item once and then select it; a fourth click handled before
    the timer of the third opens it a second time. *)
Theorem clicks_after_double_click
        (t0 t1 t2 t3 : Z) (f0 f1 f2 f3 : bool) (a : Item) :
  beats_timer t0 (mkClick t1 a f1) ->
  log (play [mkClick t0 a f0; mkClick t1 a f1; mkClick t2 a f2])
  = ([DoubleClick (id a)] ++ call_onOpen a ++ [SingleClick (id a)])%list /\
  (beats_timer t2 (mkClick t3 a f3) ->
   log (play [mkClick t0 a f0; mkClick t1 a f1; mkClick t2 a f2;
              mkClick t3 a f3])
   = ([DoubleClick (id a)] ++ call_onOpen a ++
      [DoubleClick (id a)] ++ call_onOpen a)%list).
Proof.
  intros H.
  assert (Hthird :
            after_clicks [mkClick t0 a f0; mkClick t1 a f1; mkClick t2 a f2]
                         initial
            = mkState (Some (id a)) (Some 2%nat) 1 (Some (id a))
                      [mkTimer 2 (t2 + 250) a] 3
                      ([DoubleClick (id a)] ++ call_onOpen a)).
  { change (after_clicks [mkClick t0 a f0; mkClick t1 a f1; mkClick t2 a f2]
                         initial)
      with (click (mkClick t2 a f2)
                  (after_clicks [mkClick t0 a f0; mkClick t1 a f1] initial)).
    rewrite (double_click_state t0 t1 f0 f1 a H).
    unfold click, fire. simpl. unfold handleItemClick. simpl.
    rewrite String.eqb_refl. reflexivity. }
  split.
  - change (play [mkClick t0 a f0; mkClick t1 a f1; mkClick t2 a f2])
      with (settle (after_clicks [mkClick t0 a f0; mkClick t1 a f1;
                                  mkClick t2 a f2] initial)).
    rewrite Hthird. unfold settle, fire. simpl.
    rewrite <- ?app_assoc. reflexivity.
  - intros H3.
    change (play [mkClick t0 a f0; mkClick t1 a f1; mkClick t2 a f2;
                  mkClick t3 a f3])
      with (settle (click (mkClick t3 a f3)
                      (after_clicks [mkClick t0 a f0; mkClick t1 a f1;
                                     mkClick t2 a f2] initial))).
    rewrite Hthird. unfold click, fire. simpl.
    rewrite (beats_timer_not_due _ t2 t3 f3 2 a a H3).
    simpl. unfold handleItemClick. simpl. rewrite String.eqb_refl. simpl.
    unfold settle, fire. simpl. rewrite <- ?app_assoc. reflexivity.
Qed.

(** X15. A click on another item, handled before the timer of the first
    has run, cancels the pending selection of the first: the first item is
    never selected, and a second click on the other item handled before
    its timer opens that one. *)
Theorem other_item_cancels_selection
        (t0 t1 t2 : Z) (f0 f1 f2 : bool) (a b : Item) :
  id a <> id b -> beats_timer t0 (mkClick t1 b f1) ->
  (log (play [mkClick t0 a f0; mkClick t1 b f1]) = [SingleClick (id b)] /\
   selectedId (play [mkClick t0 a f0; mkClick t1 b f1]) = Some (id b)) /\
  (beats_timer t1 (mkClick t2 b f2) ->
   log (play [mkClick t0 a f0; mkClick t1 b f1; mkClick t2 b f2])
   = ([DoubleClick (id b)] ++ call_onOpen b)%list /\
   selectedId (play [mkClick t0 a f0; mkClick t1 b f1; mkClick t2 b f2])
   = Some (id b)).
Proof.
  intros Hne H.
  assert (Hsecond :
            after_clicks [mkClick t0 a f0; mkClick t1 b f1] initial
            = mkState None (Some 2%nat) 1 (Some (id b))
                      [mkTimer 2 (t1 + 250) b] 3 []).
  { unfold after_clicks. simpl fold_left. rewrite first_click.
    unfold click, fire. simpl.
    rewrite (beats_timer_not_due _ t0 t1 f1 1 a b H).
    simpl. unfold handleItemClick. simpl.
    apply String.eqb_neq in Hne. rewrite Hne. reflexivity. }
  split.
  - change (play [mkClick t0 a f0; mkClick t1 b f1])
      with (settle (after_clicks [mkClick t0 a f0; mkClick t1 b f1]
                      initial)).
    rewrite Hsecond. split; reflexivity.
  - intros H2.
    change (play [mkClick t0 a f0; mkClick t1 b f1; mkClick t2 b f2])
      with (settle (click (mkClick t2 b f2)
                      (after_clicks [mkClick t0 a f0; mkClick t1 b f1]
                         initial))).
    rewrite Hsecond. unfold click, fire. simpl.
    rewrite (beats_timer_not_due _ t1 t2 f2 2 b b H2).
    simpl. unfold handleItemClick. simpl. rewrite String.eqb_refl. simpl.
    split; reflexivity.
Qed.

End MoreFolderFacts.

(* ===================================================================== *)
(** ** Chat relay endpoint: further properties *)
(* ===================================================================== *)

Section MoreChatFacts.

Import ChatRoute ChatStream.

(** X16. A result message is relayed as exactly one event, [done] when its
    subtype is "success" and the error event otherwise; a message whose
    type is none of the four the loop knows is relayed as nothing. *)
Theorem message_dispatch (m : SDKMessage) :
  (type m = "result" ->
   on_message m
   = if String.eqb (subtype m) "success"
     then [Data done]
     else [Data (error "Query did not complete successfully")]) /\
  (handled_type (type m) = false -> on_message m = []).
Proof.
  unfold on_message, on_stream_event, on_assistant, on_tool_progress,
         on_success, on_failure.
  split.
  - intros Ht. rewrite Ht. simpl.
    destruct (String.eqb (subtype m) "success"); reflexivity.
  - unfold handled_type. intros H.
    apply orb_false_iff in H. destruct H as [H Hr].
    apply orb_false_iff in H. destruct H as [H Hp].
    apply orb_false_iff in H. destruct H as [Hs Ha].
    rewrite Hs, Ha, Hp, Hr. reflexivity.
Qed.

(** X17. What has been relayed stays relayed: the chunks for the messages
    read so far are a prefix of the stream whatever comes next, and when
    the iterator throws the stream is exactly that prefix followed by the
    "Stream error occurred" event. *)
Theorem partial_output_preserved (ms more : list SDKMessage) (b : bool) :
  start (mkUpstream (ms ++ more) b)
  = (relayed ms ++ start (mkUpstream more b))%list /\
  start (mkUpstream ms true)
  = (relayed ms ++ [Data (error "Stream error occurred")])%list /\
  removelast (start (mkUpstream ms true)) = relayed ms /\
  removelast (start (mkUpstream ms false)) = relayed ms.
Proof.
  unfold start, relayed. simpl. repeat split.
  - rewrite flat_map_app, <- app_assoc. reflexivity.
  - apply removelast_last.
  - apply removelast_last.
Qed.

(** X18. Every stream has a closing chunk; the literal sentinel occurs
    nowhere before the last chunk, and it occurs at all only when the
    iterator did not throw. *)
Theorem sentinel_only_last (u : Upstream) :
  start u <> [] /\
  ~ In DataDone (removelast (start u)) /\
  (In DataDone (start u) <-> throws u = false).
Proof.
  unfold start. repeat split.
  - intros H. apply app_eq_nil in H. destruct H as [_ H].
    destruct (throws u); discriminate.
  - destruct (throws u); rewrite removelast_last;
      apply relayed_no_sentinel.
  - intros H. apply in_app_iff in H. destruct H as [H|H].
    + exfalso. exact (relayed_no_sentinel _ H).
    + destruct (throws u); [|reflexivity].
      destruct H as [H|[]]. discriminate.
  - intros H. rewrite H. apply in_app_iff. right. now left.
Qed.

Lemma texts_of_app (c1 c2 : list Chunk) :
  texts_of (c1 ++ c2) = (texts_of c1 ++ texts_of c2)%list.
Proof. unfold texts_of. apply flat_map_app. Qed.

Lemma texts_of_relayed (ts : list string) :
  texts_of (relayed (map text_message ts)) = ts.
Proof.
  induction ts as [|t ts IH]; [reflexivity|].
  unfold relayed in *. simpl map. simpl flat_map.
  change (on_message (text_message t)) with [Data (text_delta t)].
  simpl. f_equal. exact IH.
Qed.

(** X19. Text fragments pass through unchanged and in order: the texts of
    the stream for a run of text deltas are the texts the runtime sent,
    whether or not the run ends in an exception. *)
Theorem text_fragments_round_trip (ts : list string) (b : bool) :
  texts_of (start (mkUpstream (map text_message ts) b)) = ts.
Proof.
  unfold start. simpl. rewrite texts_of_app.
  change (flat_map on_message (map text_message ts))
    with (relayed (map text_message ts)).
  rewrite texts_of_relayed. destruct b; simpl; apply app_nil_r.
Qed.

Lemma tools_started_of_names (names : list string) :
  tools_started (map (fun n => Data (tool_start n)) names) = names.
Proof.
  induction names as [|n l IH]; [reflexivity|].
  unfold tools_started in *. simpl. f_equal. exact IH.
Qed.

(** X20. An assistant message is relayed as one [tool_start] per
    [tool_use] block of its content, in order and under the block's name;
    other blocks are relayed as nothing. *)
Theorem tool_use_announced (blocks : list Block) :
  on_message (assistant_message blocks)
  = map (fun n => Data (tool_start n)) (tool_uses blocks) /\
  tools_started (on_message (assistant_message blocks)) = tool_uses blocks.
Proof.
  assert (H : on_message (assistant_message blocks)
              = map (fun n => Data (tool_start n)) (tool_uses blocks)).
  { unfold on_message, on_stream_event, on_assistant, on_tool_progress,
           on_success, on_failure, tool_uses. simpl.
    rewrite app_nil_r.
    induction blocks as [|blk blocks IH]; simpl; [reflexivity|].
    destruct (String.eqb (block_type blk) "tool_use"); simpl;
      now rewrite IH. }
  split; [exact H|]. rewrite H. apply tools_started_of_names.
Qed.

(** X21. The handler opens at most one upstream connection, and opens one
    exactly when it answers with a stream; every connection it opens is
    limited to 10 turns and bypasses permission checks; an answer that is
    not a stream has status 400 or 500. *)
Theorem one_query_per_stream (query : QueryCall -> Upstream)
        (request : RequestJson) :
  List.length (queries (POST query request))
  = (if is_stream (response (POST query request)) then 1%nat else 0%nat) /\
  Forall (fun call => maxTurns call = 10 /\
                      permissionMode call = "bypassPermissions" /\
                      allowDangerouslySkipPermissions call = true /\
                      includePartialMessages call = true)
         (queries (POST query request)) /\
  (forall status text,
     response (POST query request) = JsonError status text ->
     status = 400 \/ status = 500).
Proof.
  unfold POST, server_error. destruct request as [|body]; simpl.
  - repeat split; [constructor|]. intros status text H. inversion H. auto.
  - destruct (member body "messages") as [messages|]; simpl.
    2:{ repeat split; [constructor|].
        intros status text H. inversion H. auto. }
    destruct (negb (truthy messages) || negb (isArray messages)); simpl.
    { repeat split; [constructor|].
      intros status text H. inversion H. auto. }
    destruct (filter_users (elements_of messages)) as [users|]; simpl.
    2:{ repeat split; [constructor|].
        intros status text H. inversion H. auto. }
    destruct (pop users) as [u|]; simpl.
    2:{ repeat split; [constructor|].
        intros status text H. inversion H. auto. }
    destruct (content_has_length u); simpl.
    2:{ repeat split; [constructor|].
        intros status text H. inversion H. auto. }
    destruct (conversationContext (elements_of messages)) as [context|];
      simpl.
    2:{ repeat split; [constructor|].
        intros status text H. inversion H. auto. }
    destruct (content_text u) as [text|]; simpl.
    2:{ repeat split; [constructor|].
        intros status text H. inversion H. auto. }
    repeat split; [|intros status text0 H; discriminate].
    repeat constructor.
Qed.

(** X22. When the last message is not a user message its content is not
    forwarded: the answer does not depend on it.  The transcript then
    covers every earlier message, the final user message included. *)
Theorem trailing_reply_not_forwarded
        (query : QueryCall -> Upstream) (msgs : list Json) (a a' : Json) :
  a <> JNull -> a' <> JNull -> is_user a = false -> is_user a' = false ->
  POST query (Body (request_body (msgs ++ [a])))
  = POST query (Body (request_body (msgs ++ [a']))) /\
  conversationContext (msgs ++ [a])
  = match all_texts (map render msgs) with
    | Some lines => Some (String.concat (nl ++ nl) lines)
    | None => None
    end.
Proof.
  intros Hn Hn' Ha Ha'.
  assert (Hctx : forall b, conversationContext (msgs ++ [b])
                           = match all_texts (map render msgs) with
                             | Some lines =>
                                 Some (String.concat (nl ++ nl) lines)
                             | None => None
                             end).
  { intros b. unfold conversationContext. now rewrite removelast_last. }
  split; [|apply Hctx].
  unfold POST. simpl.
  rewrite (filter_users_app msgs a Hn Ha), (filter_users_app msgs a' Hn' Ha').
  rewrite !Hctx. reflexivity.
Qed.

End MoreChatFacts.

(* ===================================================================== *)
(** ** Metrics wrapper: properties *)
(* ===================================================================== *)

Section MetricsFacts.

Lemma obj_get_set (k k' : string) (v : Metrics.JsVal) (o : Metrics.JsObject) :
  Metrics.obj_get k (Metrics.obj_set k' v o)
  = if String.eqb k' k then Some v else Metrics.obj_get k o.
Proof.
  induction o as [|[k0 v0] o IH]; simpl.
  - reflexivity.
  - destruct (String.eqb k0 k') eqn:E0; simpl.
    + apply String.eqb_eq in E0. subst k0.
      destruct (String.eqb k' k); reflexivity.
    + destruct (String.eqb k0 k) eqn:E1.
      * apply String.eqb_eq in E1. subst k0.
        rewrite String.eqb_sym in E0. now rewrite E0.
      * exact IH.
Qed.

(** Spreading an object: its bindings win, the others stay. *)
Lemma spread_get (k : string) (src : Metrics.JsObject) :
  NoDup (map fst src) ->
  forall base : Metrics.JsObject,
    Metrics.obj_get k (Metrics.spread base src)
    = match Metrics.obj_get k src with
      | Some v => Some v
      | None => Metrics.obj_get k base
      end.
Proof.
  unfold Metrics.spread.
  induction src as [|[k0 v0] src IH]; simpl; intros Hd base.
  - reflexivity.
  - inversion Hd as [|? ? Hn Hd']; subst.
    rewrite (IH Hd'). rewrite obj_get_set.
    destruct (String.eqb k0 k) eqn:E; [|reflexivity].
    apply String.eqb_eq in E. subst k0.
    assert (Hnone : Metrics.obj_get k src = None).
    { clear -Hn. induction src as [|[k1 v1] src IH]; simpl; [reflexivity|].
      simpl in Hn. destruct (String.eqb k1 k) eqn:E.
      - apply String.eqb_eq in E. tauto.
      - apply IH. tauto. }
    now rewrite Hnone.
Qed.

(** X23. When the SDK has no metrics function to call, each of the three
    wrappers records one breadcrumb of category "metric" named after the
    metric.  Its data carries every tag, and carries the wrapper's own
    entries (metric, value, type, unit) wherever no tag has the same key:
    a tag under one of those keys replaces the entry. *)
Theorem fallback_breadcrumb_payload
        (sdk : option Metrics.MetricsApi) (name : string) (value : Q)
        (options : option Metrics.Options) :
  NoDup (map fst (Metrics.tags_object options)) ->
  (Metrics.available sdk Metrics.increment_is_function = false ->
   exists data,
     Metrics.increment sdk name (Some value) options
     = [Metrics.AddBreadcrumb "metric" ("Metric: " ++ name) "debug" data] /\
     forall k,
       Metrics.obj_get k data
       = match Metrics.obj_get k (Metrics.tags_object options) with
         | Some v => Some v
         | None =>
             Metrics.obj_get k
               [("metric", Metrics.VString name);
                ("value", Metrics.VNumber value);
                ("type", Metrics.VString "increment")]
         end) /\
  (Metrics.available sdk Metrics.gauge_is_function = false ->
   exists data,
     Metrics.gauge sdk name value options
     = [Metrics.AddBreadcrumb "metric" ("Metric: " ++ name) "debug" data] /\
     forall k,
       Metrics.obj_get k data
       = match Metrics.obj_get k (Metrics.tags_object options) with
         | Some v => Some v
         | None =>
             Metrics.obj_get k
               [("metric", Metrics.VString name);
                ("value", Metrics.VNumber value);
                ("type", Metrics.VString "gauge")]
         end) /\
  (Metrics.available sdk Metrics.distribution_is_function = false ->
   exists data,
     Metrics.distribution sdk name value options
     = [Metrics.AddBreadcrumb "metric" ("Metric: " ++ name) "debug" data] /\
     forall k,
       Metrics.obj_get k data
       = match Metrics.obj_get k (Metrics.tags_object options) with
         | Some v => Some v
         | None =>
             Metrics.obj_get k
               [("metric", Metrics.VString name);
                ("value", Metrics.VNumber value);
                ("type", Metrics.VString "distribution");
                ("unit", Metrics.unit_value options)]
         end).
Proof.
  intros Hd. repeat split; intros Hna.
  - unfold Metrics.increment. rewrite Hna. eexists. split; [reflexivity|].
    intros k. now apply spread_get.
  - unfold Metrics.gauge. rewrite Hna. eexists. split; [reflexivity|].
    intros k. now apply spread_get.
  - unfold Metrics.distribution. rewrite Hna. eexists.
    split; [reflexivity|]. intros k. now apply spread_get.
Qed.

End MetricsFacts.

(* ===================================================================== *)
(** ** The further statements at concrete inputs *)
(* ===================================================================== *)

Lemma two_windows_reachable : WindowManager.reachable Scenarios.two_windows.
Proof. apply run_reachable. apply WindowManager.reachable_initial. Qed.

Lemma window_ids_unique_witness :
  NoDup (WindowManager.ids Scenarios.two_windows) /\
  (In "chat" (WindowManager.ids Scenarios.two_windows) ->
   List.length
     (WindowManager.windows
        (WindowManager.openWindow Samples.chat_window_again
           Scenarios.two_windows))
   = List.length (WindowManager.windows Scenarios.two_windows)) /\
  (~ In "chat" (WindowManager.ids Scenarios.two_windows) ->
   List.length
     (WindowManager.windows
        (WindowManager.openWindow Samples.chat_window_again
           Scenarios.two_windows))
   = S (List.length (WindowManager.windows Scenarios.two_windows))).
Proof.
  exact (window_ids_unique string Z Scenarios.two_windows
           Samples.chat_window_again two_windows_reachable).
Defined.

Lemma stacking_values_distinct_witness :
  NoDup (map WindowManager.zIndex
             (WindowManager.windows Scenarios.two_windows)) /\
  Forall (fun w => 100 < WindowManager.zIndex w
                   <= WindowManager.topZIndex Scenarios.two_windows)
         (WindowManager.windows Scenarios.two_windows).
Proof.
  exact (stacking_values_distinct string Z Scenarios.two_windows
           two_windows_reachable).
Defined.

Lemma close_removes_record_witness :
  In "chat" (WindowManager.ids Scenarios.two_windows) /\
  S (List.length
       (WindowManager.windows
          (WindowManager.closeWindow "chat" Scenarios.two_windows)))
  = List.length (WindowManager.windows Scenarios.two_windows).
Proof.
  assert (Hin : In "chat" (WindowManager.ids Scenarios.two_windows)).
  { simpl. left. reflexivity. }
  split; [exact Hin|].
  exact (proj1 (close_removes_record string Z Scenarios.two_windows "chat"
                  two_windows_reachable Hin)).
Defined.

Lemma focus_not_handed_over_witness :
  In Scenarios.notes_record (WindowManager.windows Scenarios.two_windows) /\
  WindowManager.focused_count
    (WindowManager.closeWindow "notes" Scenarios.two_windows) = 0%nat /\
  WindowManager.focused_count
    (WindowManager.minimizeWindow "notes" Scenarios.two_windows) = 0%nat.
Proof.
  assert (Hin : In Scenarios.notes_record
                   (WindowManager.windows Scenarios.two_windows)).
  { simpl. right. left. reflexivity. }
  split; [exact Hin|].
  exact (focus_not_handed_over string Z Scenarios.two_windows
           Scenarios.notes_record two_windows_reachable Hin eq_refl).
Defined.

Lemma request_gives_single_focus_witness :
  WindowManager.focused_count
    (WindowManager.openWindow Samples.chat_window_again
       Scenarios.two_windows) = 1%nat.
Proof.
  exact (proj1 (request_gives_single_focus string Z Scenarios.two_windows
                  Samples.chat_window_again "chat" two_windows_reachable)).
Defined.

Lemma taskbar_click_activates_witness :
  In Scenarios.chat_record (WindowManager.windows Scenarios.two_windows) /\
  WindowManager.focused_count
    (WindowViews.button_click Scenarios.chat_record Scenarios.two_windows)
  = 1%nat.
Proof.
  assert (Hin : In Scenarios.chat_record
                   (WindowManager.windows Scenarios.two_windows)).
  { simpl. left. reflexivity. }
  split; [exact Hin|].
  exact (proj1 (taskbar_click_activates string Z Scenarios.two_windows
                  Scenarios.chat_record two_windows_reachable Hin)).
Defined.

Lemma open_then_find_then_close_witness :
  ~ In "notes" (WindowManager.ids Samples.chat_open) /\
  find (WindowManager.has_id "notes")
       (WindowManager.windows
          (WindowManager.openWindow Samples.notes_window Samples.chat_open))
  = Some (WindowManager.of_descriptor Samples.notes_window 102) /\
  WindowManager.focused_count
    (WindowManager.closeWindow "notes"
       (WindowManager.openWindow Samples.notes_window Samples.chat_open))
  = 0%nat.
Proof.
  assert (Hout : ~ In "notes" (WindowManager.ids Samples.chat_open)).
  { simpl. intros [H|[]]. discriminate. }
  split; [exact Hout|].
  destruct (open_then_find_then_close string Z Samples.chat_open
              Samples.notes_window Hout) as [Hfind [_ [_ Hnone]]].
  split; [exact Hfind|exact Hnone].
Defined.

Lemma gauges_add_up_witness :
  (WindowViews.count_open (WindowViews.window_counts Scenarios.two_windows)
   + WindowViews.count_minimized
       (WindowViews.window_counts Scenarios.two_windows)
   = WindowViews.count_total
       (WindowViews.window_counts Scenarios.two_windows))%nat.
Proof.
  exact (proj1 (gauges_add_up string Z Scenarios.two_windows
                  Scenarios.chat_record two_windows_reachable)).
Defined.

Lemma clicks_after_double_click_witness :
  FolderView.log
    (FolderView.play
       [FolderView.mkClick 0 Samples.agents_item false;
        FolderView.mkClick 100 Samples.agents_item true;
        FolderView.mkClick 1000 Samples.agents_item true])
  = [FolderView.DoubleClick "agents";
     FolderView.Invoke "agents" "open agents";
     FolderView.SingleClick "agents"].
Proof.
  refine (proj1 (clicks_after_double_click string 0 100 1000 1100
                   false true true true Samples.agents_item _)).
  left. simpl. lia.
Defined.

Lemma other_item_cancels_selection_witness :
  FolderView.log
    (FolderView.play
       [FolderView.mkClick 0 Samples.agents_item false;
        FolderView.mkClick 100 Samples.readme_item true])
  = [FolderView.SingleClick "readme"] /\
  FolderView.selectedId
    (FolderView.play
       [FolderView.mkClick 0 Samples.agents_item false;
        FolderView.mkClick 100 Samples.readme_item true])
  = Some "readme".
Proof.
  refine (proj1 (other_item_cancels_selection string 0 100 200
                   false true true
                   Samples.agents_item Samples.readme_item _ _)).
  - simpl. discriminate.
  - left. simpl. lia.
Defined.

Lemma trailing_reply_not_forwarded_witness :
  ChatRoute.POST Samples.succeeding_runtime
    (ChatRoute.Body
       (ChatRoute.request_body
          (map ChatRoute.of_message Scenarios.conversation
           ++ [ChatRoute.of_message
                 (ChatRoute.mkMessageInput "assistant" "sunny")])))
  = ChatRoute.POST Samples.succeeding_runtime
      (ChatRoute.Body
         (ChatRoute.request_body
            (map ChatRoute.of_message Scenarios.conversation
             ++ [ChatRoute.of_message
                   (ChatRoute.mkMessageInput "assistant" "rainy")]))).
Proof.
  refine (proj1 (trailing_reply_not_forwarded Samples.succeeding_runtime
                   (map ChatRoute.of_message Scenarios.conversation)
                   (ChatRoute.of_message
                      (ChatRoute.mkMessageInput "assistant" "sunny"))
                   (ChatRoute.of_message
                      (ChatRoute.mkMessageInput "assistant" "rainy"))
                   _ _ _ _)).
  - discriminate.
  - discriminate.
  - reflexivity.
  - reflexivity.
Defined.

Lemma fallback_breadcrumb_payload_witness :
  NoDup (map fst (Metrics.tags_object (Some Scenarios.shadowing_tags))) /\
  exists data,
    Metrics.increment None "window.close" (Some 1%Q)
      (Some Scenarios.shadowing_tags)
    = [Metrics.AddBreadcrumb "metric" "Metric: window.close" "debug" data] /\
    forall k,
      Metrics.obj_get k data
      = match Metrics.obj_get k
                (Metrics.tags_object (Some Scenarios.shadowing_tags)) with
        | Some v => Some v
        | None =>
            Metrics.obj_get k
              [("metric", Metrics.VString "window.close");
               ("value", Metrics.VNumber 1);
               ("type", Metrics.VString "increment")]
        end.
Proof.
  assert (Hd : NoDup (map fst (Metrics.tags_object
                                 (Some Scenarios.shadowing_tags)))).
  { simpl. repeat constructor. simpl. tauto. }
  split; [exact Hd|].
  exact (proj1 (fallback_breadcrumb_payload None "window.close" 1%Q
                  (Some Scenarios.shadowing_tags) Hd) eq_refl).
Defined.
